(** * ROMA WebUI: execution monitoring and control client

    A shallow embedding of the client core of the web console:
    - [webui/src/lib/api.ts]: the axios response interceptor ([handleError]),
      the [ApiClient] methods and [pollExecutionStatus];
    - [webui/src/components/Dashboard.tsx]: the [stats] fold;
    - [webui/src/app/page.tsx]: the health effect of [Home].

    JavaScript numbers that are counters or millisecond clocks are integers
    far below 2^53 and are modelled as [Z].  Asynchronous code is modelled
    by explicit state passing: a promise that settles is an event of a
    small-step machine, and everything the source runs between two awaits is
    one atomic step (the JavaScript event loop is run-to-completion). *)

From Stdlib Require Import ZArith List String Bool Lia.
From Stdlib Require Import DecimalString Permutation.
Import ListNotations.

Open Scope string_scope.
Open Scope list_scope.
Open Scope Z_scope.

(** ** Payload types ([@/types/api]) *)

Module Execution.
(** [config], [metadata] and [statistics] are untyped maps that no modelled
    code reads; they are left out. *)
Record t : Type := mk {
  execution_id : string;
  status : string;
  initial_goal : string;
  max_depth : Z;
  total_tasks : Z;
  completed_tasks : Z;
  failed_tasks : Z;
  created_at : string;
  updated_at : string
}.
End Execution.

Module ExecutionList.
Record t : Type := mk {
  executions : list Execution.t;
  total : Z;
  offset : Z;
  limit : Z
}.
End ExecutionList.

Module Health.
Record t : Type := mk {
  status : string;
  version : string;
  uptime_seconds : Z;
  active_executions : Z;
  storage_connected : bool;
  cache_size : Z;
  timestamp : string
}.
End Health.

Module StatusPolling.
(** [progress] is a float in [0, 1] that the poller never inspects; it is
    left out together with the optional fields. *)
Record t : Type := mk {
  execution_id : string;
  status : string;
  completed_tasks : Z;
  total_tasks : Z;
  last_updated : string
}.
End StatusPolling.

Module ErrorResponse.
Record t : Type := mk {
  error : string;
  detail : option string
}.
End ErrorResponse.

(** ** Notifications ([react-hot-toast]) *)

Inductive toast : Type :=
| ToastError (msg : string)
| ToastSuccess (msg : string).

Definition is_success (t : toast) : bool :=
  match t with ToastSuccess _ => true | ToastError _ => false end.

Definition is_error (t : toast) : bool :=
  match t with ToastError _ => true | ToastSuccess _ => false end.

Definition count_success (log : list toast) : nat :=
  List.length (filter is_success log).

Definition count_error (log : list toast) : nat :=
  List.length (filter is_error log).

(** ** What axios hands to the interceptors *)

Record AxiosResponse (A : Type) : Type := mkResponse {
  status : Z;
  data : A
}.
Arguments mkResponse {A} _ _.
Arguments status {A} _.
Arguments data {A} _.

(** An axios error: [response] is absent on a network failure or a timeout;
    [response.data] may be absent or carry no [detail]. *)
Record AxiosError : Type := mkError {
  response : option (AxiosResponse (option ErrorResponse.t));
  message : string
}.

(** The outcome of one HTTP exchange as axios settles it: fulfilled on a 2xx
    status, rejected on every other status and on a network failure. *)
Inductive settled (A : Type) : Type :=
| Fulfilled (r : AxiosResponse A)
| Rejected (e : AxiosError).
Arguments Fulfilled {A} _.
Arguments Rejected {A} _.

(** ** Asynchronous computations over the notification log

    An [Async A] runs on the current toast log and either resolves with a
    value or rejects with the axios error, returning the extended log. *)

Definition Async (A : Type) : Type :=
  list toast -> (A + AxiosError) * list toast.

Definition ret {A : Type} (a : A) : Async A :=
  fun log => (inl a, log).

Definition reject {A : Type} (e : AxiosError) : Async A :=
  fun log => (inr e, log).

Definition bind {A B : Type} (m : Async A) (k : A -> Async B) : Async B :=
  fun log =>
    match m log with
    | (inl a, log') => k a log'
    | (inr e, log') => (inr e, log')
    end.

Declare Scope async_scope.
Delimit Scope async_scope with async.
Notation "x <- m ;; k" := (bind m (fun x => k))
  (at level 61, m at next level, right associativity) : async_scope.
Notation "m ;;; k" := (bind m (fun _ => k))
  (at level 61, right associativity) : async_scope.
Open Scope async_scope.

Definition toast_error (msg : string) : Async unit :=
  fun log => (inl tt, log ++ [ToastError msg]).

Definition toast_success (msg : string) : Async unit :=
  fun log => (inl tt, log ++ [ToastSuccess msg]).

(** ** The response interceptor (api.ts, lines 44-69) *)

(** JavaScript [a || b] on optional strings: [undefined] and the empty
    string are falsy. *)
Definition js_or (a : option string) (b : string) : string :=
  match a with
  | Some s => if String.eqb s "" then b else s
  | None => b
  end.

(** [error.response?.data?.detail] *)
Definition response_detail (error : AxiosError) : option string :=
  match response error with
  | Some r =>
      match data r with
      | Some body => ErrorResponse.detail body
      | None => None
      end
  | None => None
  end.

(** [error.response?.status] *)
Definition response_status (error : AxiosError) : option Z :=
  option_map status (response error).

(** [error.response?.status === n] *)
Definition status_is (error : AxiosError) (n : Z) : bool :=
  match response_status error with
  | Some s => s =? n
  | None => false
  end.

(** [error.response?.status >= n]; [undefined >= n] is false. *)
Definition status_geq (error : AxiosError) (n : Z) : bool :=
  match response_status error with
  | Some s => n <=? s
  | None => false
  end.

Definition error_message (error : AxiosError) : string :=
  js_or (response_detail error)
        (js_or (Some (message error)) "An error occurred").

Definition handleError {A : Type} (error : AxiosError) : Async A :=
  let message := error_message error in
  (if status_is error 401 then toast_error "Authentication required"
   else if status_is error 403 then toast_error "Access forbidden"
   else if status_is error 404 then toast_error "Resource not found"
   else if status_geq error 500 then
     toast_error "Server error. Please try again later."
   else toast_error message) ;;;
  reject error.

(** ** The axios instance with its interceptors *)

Inductive method : Type := GET | POST | DELETE.

(** One call through [this.client]: the response interceptor passes a
    fulfilled response on unchanged and runs [handleError] on a rejection.
    The request interceptor returns its configuration unchanged.  [outcome]
    is how the backend exchange for this call settles. *)
Definition client_request {A : Type} (m : method) (url : string)
    (outcome : settled A) : Async (AxiosResponse A) :=
  match outcome with
  | Fulfilled response => ret response
  | Rejected error => handleError error
  end.

(** ** Error taxonomy of the transport adapter

    The interceptor has no error type of its own: a class is the branch
    taken, and its message is the text of the notification. *)

Inductive ErrorClass : Type :=
| AuthRequired
| Forbidden
| NotFound
| ServerError
| RequestFailed (msg : string).

Definition class_message (c : ErrorClass) : string :=
  match c with
  | AuthRequired => "Authentication required"
  | Forbidden => "Access forbidden"
  | NotFound => "Resource not found"
  | ServerError => "Server error. Please try again later."
  | RequestFailed msg => msg
  end.

(** The classification by the table of the transport adapter: 401, 403,
    404, then 500 and above, and everything else, an absent response
    included, as [RequestFailed] with the message of the failure. *)
Definition classify (error : AxiosError) : ErrorClass :=
  match response_status error with
  | Some s =>
      if s =? 401 then AuthRequired
      else if s =? 403 then Forbidden
      else if s =? 404 then NotFound
      else if 500 <=? s then ServerError
      else RequestFailed (error_message error)
  | None => RequestFailed (error_message error)
  end.

(** ** The [ApiClient] methods (api.ts, lines 72-166)

    Each method takes, after its own arguments, the outcome of the one
    backend exchange it awaits.  Payload types that no modelled code
    inspects are section variables. *)

Section ApiClient.

Variables Metrics ExecutionData Checkpoint CheckpointList : Type.
Variables TaskTrace LMTrace AgentProfile : Type.
Variables SolveRequest ConfigUpdateRequest : Type.

Definition getHealth (outcome : settled Health.t) : Async Health.t :=
  response <- client_request GET "/health" outcome ;;
  ret (data response).

Definition createExecution (request : SolveRequest)
    (outcome : settled Execution.t) : Async Execution.t :=
  response <- client_request POST "/api/v1/executions" outcome ;;
  toast_success "Execution started successfully" ;;;
  ret (data response).

Definition getExecutions (offset limit : option Z)
    (outcome : settled ExecutionList.t) : Async ExecutionList.t :=
  let offset := match offset with Some o => o | None => 0 end in
  let limit := match limit with Some l => l | None => 20 end in
  response <- client_request GET "/api/v1/executions" outcome ;;
  ret (data response).

Definition getExecution (executionId : string)
    (outcome : settled Execution.t) : Async Execution.t :=
  response <-
    client_request GET ("/api/v1/executions/" ++ executionId)%string outcome ;;
  ret (data response).

Definition getExecutionStatus (executionId : string)
    (outcome : settled StatusPolling.t) : Async StatusPolling.t :=
  response <-
    client_request GET
      ("/api/v1/executions/" ++ executionId ++ "/status")%string outcome ;;
  ret (data response).

Definition getExecutionMetrics (executionId : string)
    (outcome : settled Metrics) : Async Metrics :=
  response <-
    client_request GET
      ("/api/v1/executions/" ++ executionId ++ "/metrics")%string outcome ;;
  ret (data response).

Definition getExecutionData (executionId : string)
    (outcome : settled ExecutionData) : Async ExecutionData :=
  response <-
    client_request GET
      ("/api/v1/executions/" ++ executionId ++ "/data")%string outcome ;;
  ret (data response).

Definition deleteExecution (executionId : string)
    (outcome : settled unit) : Async unit :=
  client_request DELETE
    ("/api/v1/executions/" ++ executionId)%string outcome ;;;
  toast_success "Execution deleted successfully".

Definition getCheckpoints (executionId : string)
    (outcome : settled CheckpointList) : Async CheckpointList :=
  response <- client_request GET "/api/v1/checkpoints" outcome ;;
  ret (data response).

Definition getCheckpoint (checkpointId : string)
    (outcome : settled Checkpoint) : Async Checkpoint :=
  response <-
    client_request GET ("/api/v1/checkpoints/" ++ checkpointId)%string
      outcome ;;
  ret (data response).

Definition restoreCheckpoint (checkpointId : string) (resume : option bool)
    (outcome : settled unit) : Async unit :=
  let resume := match resume with Some r => r | None => true end in
  client_request POST
    ("/api/v1/checkpoints/" ++ checkpointId ++ "/restore")%string outcome ;;;
  toast_success "Checkpoint restored successfully".

Definition getTaskTraces (executionId : string)
    (outcome : settled (list TaskTrace)) : Async (list TaskTrace) :=
  response <- client_request GET "/api/v1/traces/tasks" outcome ;;
  ret (data response).

Definition getLMTraces (executionId : string)
    (outcome : settled (list LMTrace)) : Async (list LMTrace) :=
  response <- client_request GET "/api/v1/traces/lm" outcome ;;
  ret (data response).

Definition updateConfig (request : ConfigUpdateRequest)
    (outcome : settled unit) : Async unit :=
  client_request POST "/api/v1/config/update" outcome ;;;
  toast_success "Configuration updated successfully".

Definition getProfiles (outcome : settled (list AgentProfile))
    : Async (list AgentProfile) :=
  response <- client_request GET "/api/v1/config/profiles" outcome ;;
  ret (data response).

Definition getProfile (profileName : string)
    (outcome : settled AgentProfile) : Async AgentProfile :=
  response <-
    client_request GET ("/api/v1/config/profiles/" ++ profileName)%string
      outcome ;;
  ret (data response).

End ApiClient.

(** ** Dashboard statistics (Dashboard.tsx, lines 21-29 and 57-88) *)

Record DashboardStats : Type := mkStats {
  totalExecutions : Z;
  activeExecutions : Z;
  completedExecutions : Z;
  failedExecutions : Z;
  averageExecutionTime : Z;
  totalTokensUsed : Z;
  totalCost : Z
}.

(** The object literal used both as the initial accumulator and as the
    fallback. *)
Definition initial_stats : DashboardStats :=
  mkStats 0 0 0 0 0 0 0.

(** The callback of [reduce].  It is handed two objects, the accumulator and
    the current record, and may write to either; it returns what both hold
    when it is done.  Only fields of the accumulator are assigned. *)
Definition reducer (acc : DashboardStats) (execution : Execution.t)
    : DashboardStats * Execution.t :=
  let acc :=
    mkStats (totalExecutions acc + 1) (activeExecutions acc)
      (completedExecutions acc) (failedExecutions acc)
      (averageExecutionTime acc) (totalTokensUsed acc) (totalCost acc) in
  let acc :=
    if String.eqb (Execution.status execution) "running" then
      mkStats (totalExecutions acc) (activeExecutions acc + 1)
        (completedExecutions acc) (failedExecutions acc)
        (averageExecutionTime acc) (totalTokensUsed acc) (totalCost acc)
    else if String.eqb (Execution.status execution) "completed" then
      mkStats (totalExecutions acc) (activeExecutions acc)
        (completedExecutions acc + 1) (failedExecutions acc)
        (averageExecutionTime acc) (totalTokensUsed acc) (totalCost acc)
    else if String.eqb (Execution.status execution) "failed" then
      mkStats (totalExecutions acc) (activeExecutions acc)
        (completedExecutions acc) (failedExecutions acc + 1)
        (averageExecutionTime acc) (totalTokensUsed acc) (totalCost acc)
    else acc in
  (acc, execution).

(** [Array.prototype.reduce] with an initial value, left to right, threading
    the accumulator and returning the array as the callbacks leave it. *)
Fixpoint reduce {A B : Type} (f : B -> A -> B * A) (arr : list A) (init : B)
    : B * list A :=
  match arr with
  | [] => (init, [])
  | x :: rest =>
      let '(acc, x') := f init x in
      let '(result, rest') := reduce f rest acc in
      (result, x' :: rest')
  end.

(** The pass over [executionsData.executions]: the statistics, and the
    collection afterwards. *)
Definition stats_pass (executions : list Execution.t)
    : DashboardStats * list Execution.t :=
  reduce reducer executions initial_stats.

(** [executionsData?.executions.reduce(...) || {...}]: the query result is
    [undefined] until the first fetch resolves; an object is truthy, so the
    fallback is taken only then. *)
Definition stats (executionsData : option ExecutionList.t) : DashboardStats :=
  match executionsData with
  | Some d => fst (stats_pass (ExecutionList.executions d))
  | None => initial_stats
  end.

(** Number of records with a given status. *)
Definition count_status (s : string) (executions : list Execution.t) : Z :=
  Z.of_nat (List.length
    (filter (fun e => String.eqb (Execution.status e) s) executions)).

(** The statuses of the data model. *)
Definition known_status (s : string) : Prop :=
  s = "pending" \/ s = "running" \/ s = "completed" \/ s = "failed"
  \/ s = "cancelled".

(** ** Timers

    A pending timer is its due time on the millisecond clock.  The delay
    given to [setTimeout] or [setInterval] is converted as the HTML timer
    steps do: to a 32-bit signed integer, wrapping around, and a negative
    result counts as zero.  A delay of 2^31 ms or more is therefore not
    waited for: 2^31 itself wraps to a negative number and the timer is due
    at once. *)
Definition to_int32 (z : Z) : Z := (z + 2 ^ 31) mod 2 ^ 32 - 2 ^ 31.

Definition timer_due (now delay : Z) : Z := now + Z.max 0 (to_int32 delay).

(** Running a machine over a sequence of events; [None] when an event is not
    enabled in the state it meets. *)
Fixpoint run_events {St Ev : Type} (step : St -> Ev -> option St)
    (s : St) (evs : list Ev) : option St :=
  match evs with
  | [] => Some s
  | e :: rest =>
      match step s e with
      | Some s' => run_events step s' rest
      | None => None
      end
  end.

(** ** The status poller (api.ts, lines 169-197) *)

Module Poller.

(** What one call of [pollExecutionStatus] owns and touches.
    [executionId] and [interval] are the variables captured by [poll];
    [inflight] counts status fetches issued and not yet settled;
    [timers] holds the due times of pending [setTimeout(poll, interval)];
    [requests] records when each fetch was issued; [delivered] is what
    [onUpdate] has received; [console] collects [console.error]. *)
Record state : Type := mk {
  executionId : string;
  interval : Z;
  now : Z;
  inflight : nat;
  timers : list Z;
  requests : list Z;
  delivered : list StatusPolling.t;
  toasts : list toast;
  console : list string
}.

(** [['completed', 'failed', 'cancelled'].includes(status.status)] *)
Definition is_terminal (status : string) : bool :=
  existsb (String.eqb status) ["completed"; "failed"; "cancelled"].

(** [poll] up to its [await]: the status request goes out. *)
Definition poll_issue (s : state) : state :=
  mk (executionId s) (interval s) (now s) (S (inflight s)) (timers s)
     (requests s ++ [now s]) (delivered s) (toasts s) (console s).

(** [poll] from its [await] on, once the request has settled.  The sink
    [onUpdate] is the caller's and is called inside the [try]: it receives
    the snapshot and then either returns ([sink_returns]) or throws, and
    what it throws is caught like a failed fetch. *)
Definition poll_settle (sink_returns : bool)
    (outcome : settled StatusPolling.t) (s : state) : state :=
  match getExecutionStatus (executionId s) outcome (toasts s) with
  | (inl status, log) =>
      (* onUpdate(status) *)
      let delivered' := delivered s ++ [status] in
      if sink_returns then
        if is_terminal (StatusPolling.status status) then
          (* return *)
          mk (executionId s) (interval s) (now s) (pred (inflight s))
             (timers s) (requests s) delivered' log (console s)
        else
          (* setTimeout(poll, interval) *)
          mk (executionId s) (interval s) (now s) (pred (inflight s))
             (timers s ++ [timer_due (now s) (interval s)]) (requests s)
             delivered' log (console s)
      else
        (* onUpdate threw; catch: console.error *)
        mk (executionId s) (interval s) (now s) (pred (inflight s))
           (timers s) (requests s) delivered' log
           (console s ++ ["Error polling execution status:"])
  | (inr error, log) =>
      (* catch: console.error *)
      mk (executionId s) (interval s) (now s) (pred (inflight s))
         (timers s) (requests s) (delivered s) log
         (console s ++ ["Error polling execution status:"])
  end.

(** The continuation with a sink that returns. *)
Definition poll_resume (outcome : settled StatusPolling.t) (s : state)
    : state :=
  poll_settle true outcome s.

(** The function returned to the caller "to stop polling": its body is
    empty. *)
Definition stop (s : state) : state := s.

(** A quiet page at time [t0] with notification log [log]. *)
Definition idle (executionId : string) (interval t0 : Z) (log : list toast)
    : state :=
  mk executionId interval t0 0 [] [] [] log [].

(** [pollExecutionStatus(executionId, onUpdate, interval = 2000)] called at
    time [t0]: the state once the call has returned, and the handle. *)
Definition pollExecutionStatus (executionId : string) (interval : option Z)
    (t0 : Z) (log : list toast) : state * (state -> state) :=
  let interval := match interval with Some i => i | None => 2000 end in
  (poll_issue (idle executionId interval t0 log), stop).

Inductive event : Type :=
| Advance (dt : Z)                         (* time passes *)
| Settle (outcome : settled StatusPolling.t)
    (* the pending fetch settles; the sink, if it is called, returns *)
| Fire                                     (* the oldest timer runs [poll] *)
| Cancel                                   (* the caller invokes the handle *)
| SinkThrows (r : AxiosResponse StatusPolling.t).
    (* the pending fetch is fulfilled and the sink throws on its snapshot *)

Definition step (s : state) (e : event) : option state :=
  match e with
  | Advance dt =>
      if 0 <=? dt then
        Some (mk (executionId s) (interval s) (now s + dt) (inflight s)
                 (timers s) (requests s) (delivered s) (toasts s)
                 (console s))
      else None
  | Settle outcome =>
      match inflight s with
      | O => None
      | S _ => Some (poll_resume outcome s)
      end
  | Fire =>
      match timers s with
      | due :: rest =>
          if due <=? now s then
            Some (poll_issue
                    (mk (executionId s) (interval s) (now s) (inflight s)
                        rest (requests s) (delivered s) (toasts s)
                        (console s)))
          else None
      | [] => None
      end
  | Cancel => Some (stop s)
  | SinkThrows r =>
      match inflight s with
      | O => None
      | S _ => Some (poll_settle false (Fulfilled r) s)
      end
  end.

Definition run : state -> list event -> option state := run_events step.

(** The invariant that keeps fetches sequential: a fetch in flight and a
    pending timer never coexist, and there is at most one of either. *)
Definition sequential (s : state) : Prop :=
  (inflight s + List.length (timers s) <= 1)%nat.

(** Nothing is left that could issue a fetch. *)
Definition quiescent (s : state) : Prop :=
  inflight s = 0%nat /\ timers s = [].

End Poller.

(** ** The health monitor (page.tsx, lines 22-40) *)

Module Monitor.

(** [health] is the React state of [Home]; [interval] is the handle of
    [setInterval], present from the effect until its cleanup, holding the
    time of the next run; [inflight], [requests], [toasts] and [console]
    are as for the poller. *)
Record state : Type := mk {
  now : Z;
  health : option Health.t;
  inflight : nat;
  interval : option Z;
  requests : list Z;
  toasts : list toast;
  console : list string
}.

(** [fetchHealth] up to its [await]. *)
Definition fetchHealth_issue (s : state) : state :=
  mk (now s) (health s) (S (inflight s)) (interval s)
     (requests s ++ [now s]) (toasts s) (console s).

(** [fetchHealth] from its [await] on. *)
Definition fetchHealth_resume (outcome : settled Health.t) (s : state)
    : state :=
  match getHealth outcome (toasts s) with
  | (inl healthData, log) =>
      (* setHealth(healthData) *)
      mk (now s) (Some healthData) (pred (inflight s)) (interval s)
         (requests s) log (console s)
  | (inr error, log) =>
      (* catch: console.error *)
      mk (now s) (health s) (pred (inflight s)) (interval s)
         (requests s) log (console s ++ ["Failed to fetch health:"])
  end.

(** [useState<Health | null>(null)], before the effect has run. *)
Definition mounted (t0 : Z) (log : list toast) : state :=
  mk t0 None 0 None [] log [].

(** The effect body: [fetchHealth(); setInterval(fetchHealth, 30000)]. *)
Definition effect (s : state) : state :=
  let s := fetchHealth_issue s in
  mk (now s) (health s) (inflight s) (Some (timer_due (now s) 30000))
     (requests s) (toasts s) (console s).

(** The cleanup returned by the effect: [clearInterval(interval)]. *)
Definition cleanup (s : state) : state :=
  mk (now s) (health s) (inflight s) None (requests s) (toasts s)
     (console s).

(** Activation at time [t0]. *)
Definition activate (t0 : Z) (log : list toast) : state :=
  effect (mounted t0 log).

Inductive event : Type :=
| Advance (dt : Z)                     (* time passes *)
| Settle (outcome : settled Health.t)  (* an outstanding fetch settles *)
| Tick                                 (* the interval runs [fetchHealth] *)
| Stop.                                (* the effect's cleanup runs *)

(** A repeating timer is armed again, one period after it ran.  The
    machine says what each event does when it occurs, not when a fetch
    settles: the client's 30000 ms timeout is one of the rejections the
    environment delivers, and no property below rests on a fetch staying
    outstanding. *)
Definition step (s : state) (e : event) : option state :=
  match e with
  | Advance dt =>
      if 0 <=? dt then
        Some (mk (now s + dt) (health s) (inflight s) (interval s)
                 (requests s) (toasts s) (console s))
      else None
  | Settle outcome =>
      match inflight s with
      | O => None
      | S _ => Some (fetchHealth_resume outcome s)
      end
  | Tick =>
      match interval s with
      | Some due =>
          if due <=? now s then
            Some (fetchHealth_issue
                    (mk (now s) (health s) (inflight s)
                        (Some (timer_due (now s) 30000)) (requests s)
                        (toasts s) (console s)))
          else None
      | None => None
      end
  | Stop => Some (cleanup s)
  end.

Definition run : state -> list event -> option state := run_events step.

Definition is_stop (e : event) : bool :=
  match e with Stop => true | _ => false end.

End Monitor.

(** Until the cleanup runs, the interval is armed one period after the
    latest refresh. *)
Definition armed (s : Monitor.state) : Prop :=
  exists (earlier : list Z) (latest : Z),
    Monitor.requests s = earlier ++ [latest]
    /\ Monitor.interval s = Some (latest + 30000).

(** ** Auxiliary definitions and sample data *)

(** 1 if the record has the status, 0 otherwise. *)
Definition has_status (s : string) (e : Execution.t) : Z :=
  if String.eqb (Execution.status e) s then 1 else 0.

(** A page of records, one in each status. *)
Definition sample_execution (id status : string) : Execution.t :=
  Execution.mk id status "Summarize this document" 2 0 0 0
    "2025-01-01T00:00:00Z" "2025-01-01T00:00:00Z".

Definition sample_page : ExecutionList.t :=
  ExecutionList.mk
    [sample_execution "e1" "running"; sample_execution "e2" "pending";
     sample_execution "e3" "completed"; sample_execution "e4" "failed";
     sample_execution "e5" "cancelled"; sample_execution "e6" "running"]
    6 0 10.

(** Sample data: a status snapshot, a 200 response, a network failure, and a
    poller started at time 0 with the default interval. *)
Definition sample_status (status : string) : StatusPolling.t :=
  StatusPolling.mk "exec-1" status 1 3 "2025-01-01T00:00:00Z".

Definition ok {A : Type} (payload : A) : settled A :=
  Fulfilled (mkResponse 200 payload).

Definition network_failure : AxiosError := mkError None "Network Error".

Definition sample_poller : Poller.state :=
  fst (Poller.pollExecutionStatus "exec-1" None 0 []).

(** The sample poller after 5000 ms without an answer. *)
Definition stalled_poller : Poller.state :=
  Poller.mk "exec-1" 2000 5000 1 [] [0] [] [] [].

Definition sample_health : Health.t :=
  Health.mk "healthy" "0.1.0" 120 1 true 0 "2025-01-01T00:00:00Z".

(** The monitor activated at time 0, after a first snapshot and the first
    tick of the interval, with the second fetch still outstanding. *)
Definition refreshing_monitor : Monitor.state :=
  Monitor.mk 30000 (Some sample_health) 1 (Some 60000) [0; 30000] [] [].

(** ** The rest of the dashboard (Dashboard.tsx, lines 90-146 and 224-315) *)

(** A whole number as a template literal prints it. *)
Definition show (z : Z) : string := NilZero.string_of_int (Z.to_int z).

(** Field-wise sum of two statistics records. *)
Definition add_stats (a b : DashboardStats) : DashboardStats :=
  mkStats (totalExecutions a + totalExecutions b)
          (activeExecutions a + activeExecutions b)
          (completedExecutions a + completedExecutions b)
          (failedExecutions a + failedExecutions b)
          (averageExecutionTime a + averageExecutionTime b)
          (totalTokensUsed a + totalTokensUsed b)
          (totalCost a + totalCost b).

Module Dashboard.

(** One entry of [statCards]; [icon] is the name of the icon component. *)
Record StatCard : Type := mkCard {
  name : string;
  value : Z;
  icon : string;
  color : string;
  trend : option string
}.

Definition statCards (stats : DashboardStats) : list StatCard :=
  [ mkCard "Total Executions" (totalExecutions stats) "DocumentTextIcon"
      "bg-blue-500" None;
    mkCard "Active Executions" (activeExecutions stats) "PlayIcon"
      "bg-green-500"
      (if 0 <? activeExecutions stats then Some "up" else None);
    mkCard "Completed" (completedExecutions stats) "CheckCircleIcon"
      "bg-emerald-500" (Some "up");
    mkCard "Failed" (failedExecutions stats) "ExclamationCircleIcon"
      "bg-red-500"
      (if 0 <? failedExecutions stats then Some "down" else None) ].

(** The arrow drawn on a card:
    [stat.trend && (stat.trend === 'up' ? up : down)]. *)
Definition trend_arrow (card : StatCard) : option string :=
  match trend card with
  | Some t =>
      if String.eqb t "" then None
      else if String.eqb t "up" then Some "ArrowTrendingUpIcon"
      else Some "ArrowTrendingDownIcon"
  | None => None
  end.

Definition getStatusColor (status : string) : string :=
  if String.eqb status "completed" then "bg-green-100 text-green-800"
  else if String.eqb status "running" then "bg-blue-100 text-blue-800"
  else if String.eqb status "failed" then "bg-red-100 text-red-800"
  else if String.eqb status "cancelled" then "bg-gray-100 text-gray-800"
  else "bg-yellow-100 text-yellow-800".

(** The icon component chosen by [getStatusIcon], by name. *)
Definition getStatusIcon (status : string) : string :=
  if String.eqb status "completed" then "CheckCircleIcon"
  else if String.eqb status "running" then "PlayIcon"
  else if String.eqb status "failed" then "ExclamationCircleIcon"
  else "ClockIcon".

(** The uptime text of the health card:
    [Math.floor(s / 3600)]h [Math.floor((s % 3600) / 60)]m.  On whole
    seconds the first is floor division and [%] is the remainder with the
    sign of the dividend. *)
Definition uptime (uptime_seconds : Z) : string :=
  (show (uptime_seconds / 3600) ++ "h "
   ++ show (Z.rem uptime_seconds 3600 / 60) ++ "m")%string.

(** One row of the table of recent executions: its key, the goal, the
    badge (colour, icon, label) and the two task counts.  The width of the
    progress bar and the formatted date are floating point and calendar
    arithmetic and are left out. *)
Record Row : Type := mkRow {
  key : string;
  goal : string;
  badge_color : string;
  badge_icon : string;
  badge_label : string;
  completed : Z;
  total : Z
}.

Definition row (execution : Execution.t) : Row :=
  mkRow (Execution.execution_id execution) (Execution.initial_goal execution)
        (getStatusColor (Execution.status execution))
        (getStatusIcon (Execution.status execution))
        (Execution.status execution)
        (Execution.completed_tasks execution)
        (Execution.total_tasks execution).

(** What the card of recent executions shows. *)
Inductive RecentView : Type :=
| Skeleton (placeholders : nat)
| NoExecutions
| Table (rows : list Row).

(** [executionsLoading ? skeleton
     : executionsData?.executions.length === 0 ? notice : table]; in the
    table, [executionsData?.executions.map(...)] renders no row when the
    data is [undefined]. *)
Definition recent (executionsLoading : bool)
    (executionsData : option ExecutionList.t) : RecentView :=
  if executionsLoading then Skeleton 5
  else
    match executionsData with
    | Some d =>
        if (List.length (ExecutionList.executions d) =? 0)%nat
        then NoExecutions
        else Table (map row (ExecutionList.executions d))
    | None => Table []
    end.

End Dashboard.

(** ** The header's uptime (Dashboard.tsx, lines 368-375) *)

Module Header.

Definition formatUptime (seconds : Z) : string :=
  let hours := seconds / 3600 in
  let minutes := Z.rem seconds 3600 / 60 in
  if 0 <? hours then (show hours ++ "h " ++ show minutes ++ "m")%string
  else (show minutes ++ "m")%string.

End Header.

(** ** Traces of the poller and the monitor *)

(** The snapshots of the fulfilled status fetches of a trace, in order,
    whether the sink returned on them or threw. *)
Definition fulfilled_snapshots (evs : list Poller.event)
    : list StatusPolling.t :=
  flat_map (fun e => match e with
                     | Poller.Settle (Fulfilled r) => [data r]
                     | Poller.SinkThrows r => [data r]
                     | _ => []
                     end) evs.

(** The snapshots of a trace on which the sink threw, in order. *)
Definition sink_failures (evs : list Poller.event) : list StatusPolling.t :=
  flat_map (fun e => match e with
                     | Poller.SinkThrows r => [data r]
                     | _ => []
                     end) evs.

(** The errors of the rejected status fetches of a trace, in order. *)
Definition rejected_errors (evs : list Poller.event) : list AxiosError :=
  flat_map (fun e => match e with
                     | Poller.Settle (Rejected error) => [error]
                     | _ => []
                     end) evs.

(** The notification the interceptor emits for an error. *)
Definition notice (error : AxiosError) : toast :=
  ToastError (class_message (classify error)).

(** Consecutive times of a list are at least [d] apart. *)
Fixpoint spaced (d : Z) (times : list Z) : Prop :=
  match times with
  | a :: (b :: _) as later => a + d <= b /\ spaced d later
  | _ => True
  end.

(** The health snapshot after a trace: the payload of the fulfilled fetch
    that settled last, or the one before the trace when there is none. *)
Definition latest_health (before : option Health.t)
    (evs : list Monitor.event) : option Health.t :=
  fold_left (fun h e => match e with
                        | Monitor.Settle (Fulfilled r) => Some (data r)
                        | _ => h
                        end) evs before.

(** A snapshot whose status is not terminal. *)
Definition nonterminal (x : StatusPolling.t) : Prop :=
  Poller.is_terminal (StatusPolling.status x) = false.

(** Only the snapshot delivered last can be terminal, and once it is the
    poller is quiescent. *)
Definition terminal_last (s : Poller.state) : Prop :=
  Poller.sequential s
  /\ (Poller.quiescent s \/ Forall nonterminal (Poller.delivered s))
  /\ Forall nonterminal (removelast (Poller.delivered s)).

(** The requests of a poller started at [t0] with interval [d] are spaced
    by [d], the latest one is not in the future, and a pending timer is due
    no sooner than [d] after it. *)
Definition paced (t0 d : Z) (s : Poller.state) : Prop :=
  Poller.sequential s
  /\ Poller.interval s = d
  /\ spaced d (Poller.requests s)
  /\ (exists later, Poller.requests s = t0 :: later)
  /\ exists earlier latest,
       Poller.requests s = earlier ++ [latest]
       /\ latest <= Poller.now s
       /\ Forall (fun due => latest + d <= due) (Poller.timers s).

(** The refreshes of the monitor are 30000 ms apart at least, the latest is
    not in the future, and the interval, while armed, is due 30000 ms after
    it. *)
Definition refreshed (s : Monitor.state) : Prop :=
  spaced 30000 (Monitor.requests s)
  /\ exists earlier latest,
       Monitor.requests s = earlier ++ [latest]
       /\ latest <= Monitor.now s
       /\ (Monitor.interval s = None
           \/ Monitor.interval s = Some (latest + 30000)).

(** ** The quick task form (QuickTaskForm.tsx, lines 12-33 and 101-116;
       Dashboard.tsx, lines 166-176)

    One mounted form inside the dashboard's panel, from the moment it is
    shown until it is closed; the dashboard's toggle, which unmounts the
    form and mounts a fresh one, is not part of it.  [Data] is the request
    as the fields hold it and [defaults] what [reset()] restores.  A
    [Submit] is a click on the submit button that passes validation; the
    button is disabled while [isSubmitting] holds. *)

Module QuickTaskForm.

Section Form.

Variable Data : Type.
Variable defaults : Data.

(** [values] are the fields; [pending] the requests of the
    [createExecution] calls that have not settled; [showQuickTask] the
    dashboard's flag that keeps the form on screen. *)
Record state : Type := mk {
  values : Data;
  isSubmitting : bool;
  pending : list Data;
  showQuickTask : bool;
  toasts : list toast;
  console : list string
}.

(** The [onSubmit] prop given by the dashboard:
    [() => setShowQuickTask(false)]. *)
Definition onSubmit (s : state) : state :=
  mk (values s) (isSubmitting s) (pending s) false (toasts s) (console s).

(** [reset()] *)
Definition reset (s : state) : state :=
  mk defaults (isSubmitting s) (pending s) (showQuickTask s) (toasts s)
     (console s).

Definition setIsSubmitting (b : bool) (s : state) : state :=
  mk (values s) b (pending s) (showQuickTask s) (toasts s) (console s).

(** [onFormSubmit] up to its [await]. *)
Definition onFormSubmit_issue (data : Data) (s : state) : state :=
  let s := setIsSubmitting true s in
  mk (values s) (isSubmitting s) (pending s ++ [data]) (showQuickTask s)
     (toasts s) (console s).

(** [onFormSubmit] from its [await] on: try, catch, finally. *)
Definition onFormSubmit_resume (data : Data) (outcome : settled Execution.t)
    (s : state) : state :=
  let s :=
    match createExecution Data data outcome (toasts s) with
    | (inl _, log) =>
        onSubmit
          (reset (mk (values s) (isSubmitting s) (pending s)
                     (showQuickTask s) log (console s)))
    | (inr error, log) =>
        mk (values s) (isSubmitting s) (pending s) (showQuickTask s) log
           (console s ++ ["Failed to create execution:"])
    end in
  setIsSubmitting false s.

(** The form as the panel opens, on the notification log [log]. *)
Definition opened (log : list toast) : state :=
  mk defaults false [] true log [].

Inductive event : Type :=
| Edit (v : Data)                          (* the user changes the fields *)
| Submit                                   (* a valid click on submit *)
| Settle (outcome : settled Execution.t)   (* the oldest request settles *)
| CancelClick.                             (* the cancel button *)

Definition step (s : state) (e : event) : option state :=
  match e with
  | Edit v =>
      if showQuickTask s then
        Some (mk v (isSubmitting s) (pending s) (showQuickTask s) (toasts s)
                 (console s))
      else None
  | Submit =>
      if showQuickTask s && negb (isSubmitting s) then
        Some (onFormSubmit_issue (values s) s)
      else None
  | Settle outcome =>
      match pending s with
      | data :: rest =>
          Some (onFormSubmit_resume data outcome
                  (mk (values s) (isSubmitting s) rest (showQuickTask s)
                      (toasts s) (console s)))
      | [] => None
      end
  | CancelClick =>
      if showQuickTask s then Some (onSubmit (reset s)) else None
  end.

End Form.

Arguments values {Data} _.
Arguments isSubmitting {Data} _.
Arguments pending {Data} _.
Arguments showQuickTask {Data} _.
Arguments toasts {Data} _.
Arguments console {Data} _.
Arguments Edit {Data} _.
Arguments Submit {Data}.
Arguments Settle {Data} _.
Arguments CancelClick {Data}.

End QuickTaskForm.

(** ** Navigation (page.tsx, lines 21-105, 127-134 and 163-220) *)

Module Home.

Record NavItem : Type := mkNav {
  name : string;
  href : string;
  icon : string
}.

Definition navigation : list NavItem :=
  [ mkNav "Dashboard" "dashboard" "HomeIcon";
    mkNav "Executions" "executions" "PlayIcon";
    mkNav "Agents" "agents" "UserGroupIcon";
    mkNav "Profiles" "profiles" "FolderIcon";
    mkNav "Metrics" "metrics" "ChartBarIcon";
    mkNav "Settings" "settings" "CogIcon" ].

(** The two pieces of state of [Home] that drive the layout. *)
Record state : Type := mk {
  sidebarOpen : bool;
  activeTab : string
}.

(** [useState(false)], [useState('dashboard')] *)
Definition initial : state := mk false "dashboard".

(** The three buttons under "Quick Actions". *)
Inductive quick : Type := NewExecution | CreateAgent | NewProfile.

Definition quick_target (q : quick) : string :=
  match q with
  | NewExecution => "executions"
  | CreateAgent => "agents"
  | NewProfile => "profiles"
  end.

Inductive event : Type :=
| MenuClick                 (* the header's menu button *)
| NavClick (index : nat)    (* the [index]-th navigation button *)
| QuickAction (q : quick)
| Close.                    (* the backdrop or the sidebar's close button *)

Definition step (s : state) (e : event) : option state :=
  match e with
  | MenuClick => Some (mk (negb (sidebarOpen s)) (activeTab s))
  | NavClick index =>
      match nth_error navigation index with
      | Some item =>
          (* onTabChange(item.href); onClose() *)
          Some (mk false (href item))
      | None => None
      end
  | QuickAction q => Some (mk (sidebarOpen s) (quick_target q))
  | Close => Some (mk false (activeTab s))
  end.

Definition run : state -> list event -> option state := run_events step.

(** [const isActive = activeTab === item.href] *)
Definition isActive (activeTab : string) (item : NavItem) : bool :=
  String.eqb activeTab item.(href).

(** The panels of [main], one conditional each, by their heading. *)
Definition panels (activeTab : string) : list string :=
  (if String.eqb activeTab "dashboard" then ["Dashboard"] else [])
  ++ (if String.eqb activeTab "executions" then ["Executions"] else [])
  ++ (if String.eqb activeTab "agents" then ["Agent Management"] else [])
  ++ (if String.eqb activeTab "profiles"
      then ["Configuration Profiles"] else [])
  ++ (if String.eqb activeTab "metrics"
      then ["Metrics & Analytics"] else []).

End Home.

(** ** The client's construction and its web socket (api.ts, lines 23-30
       and 200-203) *)

(** [s] without its first [n] characters. *)
Fixpoint string_drop (n : nat) (s : string) : string :=
  match n, s with
  | O, _ => s
  | S n', String _ s' => string_drop n' s'
  | S _, EmptyString => EmptyString
  end.

(** [s.replace(pattern, replacement)] for a string pattern and a replacement
    without [$]: the first occurrence is replaced, the rest is left. *)
Fixpoint replace_first (pattern replacement s : string) {struct s} : string :=
  if String.prefix pattern s then
    (replacement ++ string_drop (String.length pattern) s)%string
  else
    match s with
    | EmptyString => EmptyString
    | String c s' => String c (replace_first pattern replacement s')
    end.

Module ApiClient.

(** The configuration given to [axios.create]. *)
Record t : Type := mk {
  baseURL : string;
  timeout : Z
}.

(** [constructor(baseURL = process.env.NEXT_PUBLIC_API_URL
                           || 'http://localhost:8000')]: the default is
    taken when no argument is given. *)
Definition constructor (baseURL : option string)
    (NEXT_PUBLIC_API_URL : option string) : t :=
  let baseURL :=
    match baseURL with
    | Some b => b
    | None => js_or NEXT_PUBLIC_API_URL "http://localhost:8000"
    end in
  mk baseURL 30000.

(** The URL [connectWebSocket] opens its socket on. *)
Definition connectWebSocket (client : t) (executionId : string) : string :=
  (replace_first "http" "ws" (baseURL client)
   ++ "/ws/executions/" ++ executionId)%string.

End ApiClient.

(** A backend that answers the polls with the non-terminal snapshots
    [snapshots] and then with [final], each answer at once, a sink that
    returns on each, and each timer running when it is due, [d] ms after it
    was set. *)
Fixpoint poll_script (d : Z) (snapshots : list StatusPolling.t)
    (final : StatusPolling.t) : list Poller.event :=
  match snapshots with
  | [] => [Poller.Settle (ok final)]
  | x :: later =>
      Poller.Settle (ok x) :: Poller.Advance d :: Poller.Fire
        :: poll_script d later final
  end.

(** [n] times from [t] on, [d] apart. *)
Fixpoint request_times (t d : Z) (n : nat) : list Z :=
  match n with
  | O => []
  | S n' => t :: request_times (t + d) d n'
  end.

(** The sample poller after a running snapshot and a second fetch that was
    rejected. *)
Definition rejected_second_poll : Poller.state :=
  Poller.mk "exec-1" 2000 2000 0 [] [0; 2000] [sample_status "running"]
    [ToastError "Network Error"] ["Error polling execution status:"].

(** * Properties *)

(** ** The aggregator *)

Lemma count_status_cons (s : string) (e : Execution.t) (l : list Execution.t) :
  count_status s (e :: l) =
  (if String.eqb (Execution.status e) s then 1 else 0) + count_status s l.
Proof.
  unfold count_status; cbn [filter].
  destruct (String.eqb (Execution.status e) s); cbn [List.length]; lia.
Qed.

Lemma count_status_nonneg (s : string) (l : list Execution.t) :
  0 <= count_status s l.
Proof. unfold count_status; lia. Qed.

Lemma count_status_zero (s : string) (l : list Execution.t) :
  count_status s l = 0 <-> Forall (fun e => Execution.status e <> s) l.
Proof.
  induction l as [|e l IH].
  - split; [constructor | reflexivity].
  - rewrite count_status_cons.
    pose proof (count_status_nonneg s l) as Hnn.
    destruct (String.eqb_spec (Execution.status e) s) as [Heq|Hne].
    + split; [lia | intros HF; inversion HF; subst; contradiction].
    + split.
      * intros Hz. constructor; [exact Hne | apply IH; lia].
      * intros HF. inversion HF; subst. apply IH in H2. lia.
Qed.

(** Closes a goal on a statistics record built field by field. *)
Ltac reduce_fields :=
  cbn [totalExecutions activeExecutions completedExecutions failedExecutions
       averageExecutionTime totalTokensUsed totalCost String.eqb Ascii.eqb
       Bool.eqb];
  split; [reflexivity | f_equal; lia].

(** What the fold has done after a suffix [l], from any accumulator. *)
Lemma reduce_reducer (l : list Execution.t) :
  forall acc : DashboardStats,
    snd (reduce reducer l acc) = l /\
    fst (reduce reducer l acc) =
    mkStats (totalExecutions acc + Z.of_nat (List.length l))
            (activeExecutions acc + count_status "running" l)
            (completedExecutions acc + count_status "completed" l)
            (failedExecutions acc + count_status "failed" l)
            (averageExecutionTime acc) (totalTokensUsed acc) (totalCost acc).
Proof.
  induction l as [|e l IH]; intros acc.
  - destruct acc; cbn [reduce fst snd List.length Z.of_nat count_status filter].
    reduce_fields.
  - cbn [reduce].
    destruct (reducer acc e) as [acc1 e1] eqn:Hstep.
    destruct (reduce reducer l acc1) as [r l1] eqn:Hrest.
    pose proof (IH acc1) as [Hl Hr]. rewrite Hrest in Hl, Hr. cbn in Hl, Hr.
    rewrite !count_status_cons. cbn [List.length]. rewrite Nat2Z.inj_succ.
    unfold reducer in Hstep.
    cbn [fst snd]. subst l1 r.
    destruct (String.eqb_spec (Execution.status e) "running") as [E1|N1].
    + rewrite E1 in *. cbn in Hstep. inversion Hstep; subst. reduce_fields.
    + destruct (String.eqb_spec (Execution.status e) "completed") as [E2|N2].
      * rewrite E2 in *. cbn in Hstep. inversion Hstep; subst. reduce_fields.
      * destruct (String.eqb_spec (Execution.status e) "failed") as [E3|N3].
        -- rewrite E3 in *. cbn in Hstep. inversion Hstep; subst.
           reduce_fields.
        -- inversion Hstep; subst. reduce_fields.
Qed.

Lemma stats_pass_counts (l : list Execution.t) :
  stats_pass l =
  (mkStats (Z.of_nat (List.length l)) (count_status "running" l)
           (count_status "completed" l) (count_status "failed" l) 0 0 0, l).
Proof.
  unfold stats_pass.
  destruct (reduce_reducer l initial_stats) as [Hl Hr].
  destruct (reduce reducer l initial_stats) as [r l']. cbn in Hl, Hr.
  subst. reflexivity.
Qed.

Lemma reduce_snoc {A B : Type} (f : B -> A -> B * A) (l : list A) (x : A) :
  forall init : B,
    reduce f (l ++ [x]) init =
    (fst (f (fst (reduce f l init)) x),
     snd (reduce f l init) ++ [snd (f (fst (reduce f l init)) x)]).
Proof.
  induction l as [|y l IH]; intros init; cbn [reduce app].
  - cbn [fst snd app]. destruct (f init x) as [acc x']. reflexivity.
  - destruct (f init y) as [acc y'].
    rewrite IH. destruct (reduce f l acc) as [r l']. reflexivity.
Qed.

(** Every record with a status of the data model falls in one of five
    disjoint classes. *)
Lemma known_status_partition (l : list Execution.t) :
  Forall (fun e => known_status (Execution.status e)) l ->
  count_status "running" l + count_status "completed" l
  + count_status "failed" l + count_status "pending" l
  + count_status "cancelled" l = Z.of_nat (List.length l).
Proof.
  induction 1 as [|e l He _ IH].
  - reflexivity.
  - rewrite !count_status_cons. cbn [List.length]. rewrite Nat2Z.inj_succ.
    destruct He as [E|[E|[E|[E|E]]]]; rewrite E;
      cbn [String.eqb Ascii.eqb Bool.eqb]; lia.
Qed.

Lemma reducer_step (acc : DashboardStats) (e : Execution.t) :
  reducer acc e =
  (mkStats (totalExecutions acc + 1)
           (activeExecutions acc + has_status "running" e)
           (completedExecutions acc + has_status "completed" e)
           (failedExecutions acc + has_status "failed" e)
           (averageExecutionTime acc) (totalTokensUsed acc) (totalCost acc),
   e).
Proof.
  unfold reducer, has_status.
  destruct (String.eqb_spec (Execution.status e) "running") as [E1|N1].
  - rewrite E1. cbn. f_equal. f_equal; lia.
  - destruct (String.eqb_spec (Execution.status e) "completed") as [E2|N2].
    + rewrite E2. cbn. f_equal. f_equal; lia.
    + destruct (String.eqb_spec (Execution.status e) "failed") as [E3|N3];
        cbn; f_equal; f_equal; lia.
Qed.

Lemma has_status_exclusive (e : Execution.t) :
  0 <= has_status "running" e + has_status "completed" e
       + has_status "failed" e <= 1.
Proof.
  unfold has_status.
  destruct (String.eqb_spec (Execution.status e) "running") as [E1|N1];
    [rewrite E1; cbn; lia|].
  destruct (String.eqb_spec (Execution.status e) "completed") as [E2|N2];
    [rewrite E2; cbn; lia|].
  destruct (String.eqb (Execution.status e) "failed"); lia.
Qed.

(** C4.  The dashboard aggregation is one left-to-right pass of the callback
    over the records.  The result has [totalExecutions] equal to the number
    of records and [activeExecutions], [completedExecutions] and
    [failedExecutions] equal to the numbers of records whose status is
    running, completed and failed.  Each record adds one to the total and to
    at most one of the three other counters, the one its status names, and
    to none of them for any other status.  On the empty sequence, and before
    any data has arrived, every field is zero, and the pass leaves the input
    collection as it found it. *)
Theorem stats_single_pass :
  forall (d : ExecutionList.t) (acc : DashboardStats) (e : Execution.t),
    let executions := ExecutionList.executions d in
    stats (Some d) =
      mkStats (Z.of_nat (List.length executions))
              (count_status "running" executions)
              (count_status "completed" executions)
              (count_status "failed" executions) 0 0 0
    /\ snd (stats_pass executions) = executions
    /\ stats_pass (executions ++ [e]) =
         (fst (reducer (fst (stats_pass executions)) e), executions ++ [e])
    /\ reducer acc e =
         (mkStats (totalExecutions acc + 1)
                  (activeExecutions acc + has_status "running" e)
                  (completedExecutions acc + has_status "completed" e)
                  (failedExecutions acc + has_status "failed" e)
                  (averageExecutionTime acc) (totalTokensUsed acc)
                  (totalCost acc), e)
    /\ 0 <= has_status "running" e + has_status "completed" e
            + has_status "failed" e <= 1
    /\ stats_pass [] = (mkStats 0 0 0 0 0 0 0, [])
    /\ stats None = mkStats 0 0 0 0 0 0 0.
Proof.
  intros d acc e executions.
  repeat split.
  - unfold stats. fold executions. rewrite stats_pass_counts. reflexivity.
  - rewrite stats_pass_counts. reflexivity.
  - unfold stats_pass. rewrite reduce_snoc.
    fold (stats_pass executions). rewrite stats_pass_counts.
    cbn [fst snd]. rewrite reducer_step. reflexivity.
  - apply reducer_step.
  - apply has_status_exclusive.
  - apply has_status_exclusive.
Qed.

(** C6.  For every sequence of records whose statuses are among pending,
    running, completed, failed and cancelled, the aggregated result has
    [activeExecutions + completedExecutions + failedExecutions] at most
    [totalExecutions], with equality exactly when no record is pending or
    cancelled; [totalExecutions] is the length of the sequence, and on the
    empty sequence all fields are zero. *)
Theorem stats_sum_bound :
  forall d : ExecutionList.t,
    Forall (fun e => known_status (Execution.status e))
           (ExecutionList.executions d) ->
    let r := stats (Some d) in
    activeExecutions r + completedExecutions r + failedExecutions r
      <= totalExecutions r
    /\ (activeExecutions r + completedExecutions r + failedExecutions r
          = totalExecutions r
        <-> Forall (fun e => Execution.status e <> "pending"
                             /\ Execution.status e <> "cancelled")
                   (ExecutionList.executions d))
    /\ totalExecutions r = Z.of_nat (List.length (ExecutionList.executions d))
    /\ stats (Some (ExecutionList.mk [] (ExecutionList.total d)
                      (ExecutionList.offset d) (ExecutionList.limit d)))
       = mkStats 0 0 0 0 0 0 0.
Proof.
  intros d Hknown r. subst r. unfold stats.
  rewrite stats_pass_counts.
  cbn [fst totalExecutions activeExecutions completedExecutions
       failedExecutions].
  set (l := ExecutionList.executions d) in *.
  pose proof (known_status_partition l Hknown) as Hpart.
  pose proof (count_status_nonneg "pending" l) as Hp.
  pose proof (count_status_nonneg "cancelled" l) as Hc.
  split; [lia|]. split; [|split; reflexivity].
  split.
  - intros Heq.
    assert (Hp0 : count_status "pending" l = 0) by lia.
    assert (Hc0 : count_status "cancelled" l = 0) by lia.
    apply count_status_zero in Hp0. apply count_status_zero in Hc0.
    rewrite Forall_forall in *. intros e He. split; auto.
  - intros HF.
    assert (Hp0 : count_status "pending" l = 0).
    { apply count_status_zero. rewrite Forall_forall in *.
      intros e He. apply (HF e He). }
    assert (Hc0 : count_status "cancelled" l = 0).
    { apply count_status_zero. rewrite Forall_forall in *.
      intros e He. apply (HF e He). }
    lia.
Qed.

Example stats_sample_page :
  stats (Some sample_page) = mkStats 6 2 1 1 0 0 0.
Proof. reflexivity. Qed.

Lemma stats_sum_bound_witness :
  let r := stats (Some sample_page) in
  activeExecutions r + completedExecutions r + failedExecutions r
    <= totalExecutions r
  /\ (activeExecutions r + completedExecutions r + failedExecutions r
        = totalExecutions r
      <-> Forall (fun e => Execution.status e <> "pending"
                           /\ Execution.status e <> "cancelled")
                 (ExecutionList.executions sample_page))
  /\ totalExecutions r
     = Z.of_nat (List.length (ExecutionList.executions sample_page))
  /\ stats (Some (ExecutionList.mk [] (ExecutionList.total sample_page)
                    (ExecutionList.offset sample_page)
                    (ExecutionList.limit sample_page)))
     = mkStats 0 0 0 0 0 0 0.
Proof.
  apply (stats_sum_bound sample_page).
  unfold sample_page, known_status; cbn.
  repeat (apply Forall_cons; [auto 8|]). apply Forall_nil.
Defined.

(** C10.  The statistics record has three fields beyond the four counters,
    [averageExecutionTime], [totalTokensUsed] and [totalCost].  The callback
    never assigns them, and for every input, the empty collection and the
    absent one included, all three are zero in the result. *)
Theorem stats_unused_fields_zero :
  forall (executionsData : option ExecutionList.t) (acc : DashboardStats)
         (e : Execution.t),
    (averageExecutionTime (stats executionsData) = 0
     /\ totalTokensUsed (stats executionsData) = 0
     /\ totalCost (stats executionsData) = 0)
    /\ (averageExecutionTime (fst (reducer acc e)) = averageExecutionTime acc
        /\ totalTokensUsed (fst (reducer acc e)) = totalTokensUsed acc
        /\ totalCost (fst (reducer acc e)) = totalCost acc).
Proof.
  intros [d|] acc e.
  - unfold stats. rewrite stats_pass_counts, reducer_step. cbn. auto.
  - rewrite reducer_step. cbn. auto.
Qed.

(** ** The transport adapter *)

Lemma handleError_classified (A : Type) (error : AxiosError)
    (log : list toast) :
  @handleError A error log =
  (inr error,
   log ++ [ToastError (class_message (classify error))]).
Proof.
  unfold handleError, classify, status_is, status_geq, bind.
  destruct (response_status error) as [s|]; [|reflexivity].
  destruct (s =? 401); [reflexivity|].
  destruct (s =? 403); [reflexivity|].
  destruct (s =? 404); [reflexivity|].
  destruct (500 <=? s); reflexivity.
Qed.

Lemma count_success_snoc_error (log : list toast) (msg : string) :
  count_success (log ++ [ToastError msg]) = count_success log.
Proof.
  unfold count_success. rewrite filter_app, length_app. cbn. lia.
Qed.

Lemma count_success_snoc_success (log : list toast) (msg : string) :
  count_success (log ++ [ToastSuccess msg]) = S (count_success log).
Proof.
  unfold count_success. rewrite filter_app, length_app. cbn. lia.
Qed.

Lemma count_error_snoc_error (log : list toast) (msg : string) :
  count_error (log ++ [ToastError msg]) = S (count_error log).
Proof.
  unfold count_error. rewrite filter_app, length_app. cbn. lia.
Qed.

(** A read: await the exchange, return the payload. *)
Lemma read_only_no_success (A B : Type) (m : method) (url : string)
    (f : AxiosResponse A -> B) (outcome : settled A) (log : list toast) :
  count_success
    (snd ((response <- client_request m url outcome ;; ret (f response)) log))
  = count_success log.
Proof.
  destruct outcome as [r|e]; unfold bind, client_request.
  - reflexivity.
  - rewrite handleError_classified. cbn [snd].
    apply count_success_snoc_error.
Qed.

(** Whatever follows the await of a rejected exchange is skipped. *)
Lemma rejected_skips_continuation (A B : Type) (m : method) (url : string)
    (k : AxiosResponse A -> Async B) (error : AxiosError) (log : list toast) :
  (response <- client_request m url (Rejected error) ;; k response) log =
  (inr error,
   log ++ [ToastError (class_message (classify error))]).
Proof.
  unfold bind, client_request. rewrite handleError_classified. reflexivity.
Qed.

(** The message of the last branch, spelled out: the backend's detail when
    it is present and not empty, else the error's own message when that is
    not empty, else the generic text. *)
Lemma error_message_cases (error : AxiosError) :
  error_message error =
  let own :=
    if String.eqb (message error) "" then "An error occurred"
    else message error in
  match response_detail error with
  | Some d => if String.eqb d "" then own else d
  | None => own
  end.
Proof. reflexivity. Qed.

(** A network failure: no response, and the message axios gives it. *)
Example network_failure_notification :
  client_request GET "/health" (Rejected network_failure : settled Health.t) []
  = (inr network_failure, [ToastError "Network Error"])
  /\ classify network_failure = RequestFailed "Network Error"
  /\ classify (mkError None "") = RequestFailed "An error occurred".
Proof. repeat split. Qed.

(** C5.  On every rejected exchange (a non-2xx response or a network
    failure) the interceptor classifies the error by the table: 401 is
    AuthRequired, 403 Forbidden, 404 NotFound, a status of 500 or more
    ServerError, and any other status or an absent response RequestFailed.
    A RequestFailed carries the backend's detail when there is one (present
    and not empty) and a generic message otherwise: the error's own message,
    or "An error occurred" when it has none.  Exactly one error notification
    with the class's message is emitted and the call rejects with the same
    error; nothing that follows the await in a client method runs, and the
    catch blocks of the poller and of the health monitor add no notification
    of their own. *)
Theorem transport_error_classification :
  forall (A B : Type) (m : method) (url : string)
         (k : AxiosResponse A -> Async B) (error : AxiosError)
         (log : list toast) (p : Poller.state) (h : Monitor.state),
    let notice :=
      ToastError (class_message (classify error)) in
    client_request m url (Rejected error : settled A) log
      = (inr error, log ++ [notice])
    /\ count_error
         (snd (client_request m url (Rejected error : settled A) log))
       = S (count_error log)
    /\ (response <- client_request m url (Rejected error) ;; k response) log
       = (inr error, log ++ [notice])
    /\ error_message error =
         (let own :=
            if String.eqb (message error) "" then "An error occurred"
            else message error in
          match response_detail error with
          | Some d => if String.eqb d "" then own else d
          | None => own
          end)
    /\ Poller.toasts (Poller.poll_resume (Rejected error) p)
       = Poller.toasts p ++ [notice]
    /\ Monitor.toasts (Monitor.fetchHealth_resume (Rejected error) h)
       = Monitor.toasts h ++ [notice].
Proof.
  intros A B m url k error log p h notice. subst notice.
  assert (Hreq : client_request m url (Rejected error : settled A) log =
    (inr error,
     log ++ [ToastError (class_message (classify error))])).
  { unfold client_request. apply handleError_classified. }
  split; [exact Hreq|].
  split; [rewrite Hreq; cbn [snd]; apply count_error_snoc_error|].
  split; [apply rejected_skips_continuation|].
  split; [apply error_message_cases|].
  split.
  - unfold Poller.poll_resume, Poller.poll_settle, getExecutionStatus.
    rewrite rejected_skips_continuation. reflexivity.
  - unfold Monitor.fetchHealth_resume, getHealth.
    rewrite rejected_skips_continuation. reflexivity.
Qed.

(** C7.  Each of the four mutating operations ([createExecution],
    [deleteExecution], [restoreCheckpoint], [updateConfig]) emits exactly one
    success notification when its call succeeds, and none of the read-only
    operations emits a success notification, however its call settles. *)
Theorem success_notifications :
  forall (Metrics ExecutionData Checkpoint CheckpointList : Type)
         (TaskTrace LMTrace AgentProfile : Type)
         (SolveRequest ConfigUpdateRequest : Type)
         (id : string) (log : list toast),
    ((forall (request : SolveRequest) r,
         snd (createExecution SolveRequest request (Fulfilled r) log)
         = log ++ [ToastSuccess "Execution started successfully"])
     /\ (forall r,
         snd (deleteExecution id (Fulfilled r) log)
         = log ++ [ToastSuccess "Execution deleted successfully"])
     /\ (forall resume r,
         snd (restoreCheckpoint id resume (Fulfilled r) log)
         = log ++ [ToastSuccess "Checkpoint restored successfully"])
     /\ (forall (request : ConfigUpdateRequest) r,
         snd (updateConfig ConfigUpdateRequest request (Fulfilled r) log)
         = log ++ [ToastSuccess "Configuration updated successfully"]))
    /\ ((forall o, count_success (snd (getHealth o log)) = count_success log)
     /\ (forall offset limit o,
         count_success (snd (getExecutions offset limit o log))
         = count_success log)
     /\ (forall o,
         count_success (snd (getExecution id o log)) = count_success log)
     /\ (forall o,
         count_success (snd (getExecutionStatus id o log))
         = count_success log)
     /\ (forall o,
         count_success (snd (getExecutionMetrics Metrics id o log))
         = count_success log)
     /\ (forall o,
         count_success (snd (getExecutionData ExecutionData id o log))
         = count_success log)
     /\ (forall o,
         count_success (snd (getCheckpoints CheckpointList id o log))
         = count_success log)
     /\ (forall o,
         count_success (snd (getCheckpoint Checkpoint id o log))
         = count_success log)
     /\ (forall o,
         count_success (snd (getTaskTraces TaskTrace id o log))
         = count_success log)
     /\ (forall o,
         count_success (snd (getLMTraces LMTrace id o log))
         = count_success log)
     /\ (forall o,
         count_success (snd (getProfiles AgentProfile o log))
         = count_success log)
     /\ (forall o,
         count_success (snd (getProfile AgentProfile id o log))
         = count_success log)).
Proof.
  intros. split.
  - repeat split; intros; reflexivity.
  - repeat split; intros; apply read_only_no_success.
Qed.

(** ** The status poller *)

Lemma poll_resume_fulfilled (r : AxiosResponse StatusPolling.t)
    (s : Poller.state) :
  Poller.poll_resume (Fulfilled r) s =
  if Poller.is_terminal (StatusPolling.status (data r)) then
    Poller.mk (Poller.executionId s) (Poller.interval s) (Poller.now s)
      (pred (Poller.inflight s)) (Poller.timers s) (Poller.requests s)
      (Poller.delivered s ++ [data r]) (Poller.toasts s) (Poller.console s)
  else
    Poller.mk (Poller.executionId s) (Poller.interval s) (Poller.now s)
      (pred (Poller.inflight s))
      (Poller.timers s ++ [timer_due (Poller.now s) (Poller.interval s)])
      (Poller.requests s) (Poller.delivered s ++ [data r]) (Poller.toasts s)
      (Poller.console s).
Proof. reflexivity. Qed.

Lemma poll_resume_rejected (error : AxiosError) (s : Poller.state) :
  Poller.poll_resume (Rejected error) s =
  Poller.mk (Poller.executionId s) (Poller.interval s) (Poller.now s)
    (pred (Poller.inflight s)) (Poller.timers s) (Poller.requests s)
    (Poller.delivered s)
    (Poller.toasts s
       ++ [ToastError (class_message (classify error))])
    (Poller.console s ++ ["Error polling execution status:"]).
Proof.
  unfold Poller.poll_resume, Poller.poll_settle, getExecutionStatus.
  rewrite rejected_skips_continuation. reflexivity.
Qed.

Lemma poll_settle_thrown (r : AxiosResponse StatusPolling.t)
    (s : Poller.state) :
  Poller.poll_settle false (Fulfilled r) s =
  Poller.mk (Poller.executionId s) (Poller.interval s) (Poller.now s)
    (pred (Poller.inflight s)) (Poller.timers s) (Poller.requests s)
    (Poller.delivered s ++ [data r]) (Poller.toasts s)
    (Poller.console s ++ ["Error polling execution status:"]).
Proof. reflexivity. Qed.

Lemma timer_due_in_range (now delay : Z) :
  0 <= delay < 2 ^ 31 -> timer_due now delay = now + delay.
Proof.
  intros Hr. unfold timer_due, to_int32.
  rewrite Z.mod_small by lia. lia.
Qed.

Lemma is_terminal_spec (status : string) :
  Poller.is_terminal status = true <->
  status = "completed" \/ status = "failed" \/ status = "cancelled".
Proof.
  unfold Poller.is_terminal. cbn [existsb].
  rewrite !orb_true_iff, !String.eqb_eq. intuition discriminate.
Qed.

(** Inverts one enabled step into the shape of the state it produces. *)
Ltac poller_step H :=
  match type of H with
  | Poller.step ?s ?e = Some ?s' =>
      let dt := fresh "dt" in
      let r := fresh "r" in
      let error := fresh "error" in
      let due := fresh "due" in
      let rest := fresh "rest" in
      let thrown := fresh "thrown" in
      destruct e as [dt | [r | error] | | | thrown]; cbn [Poller.step] in H;
      [ destruct (0 <=? dt) eqn:?; [|discriminate]
      | destruct (Poller.inflight s) eqn:?; [discriminate|];
        rewrite poll_resume_fulfilled in H;
        destruct (Poller.is_terminal (StatusPolling.status (data r))) eqn:?
      | destruct (Poller.inflight s) eqn:?; [discriminate|];
        rewrite poll_resume_rejected in H
      | destruct (Poller.timers s) as [|due rest] eqn:?; [discriminate|];
        destruct (due <=? Poller.now s) eqn:?; [|discriminate]
      | unfold Poller.stop in H
      | destruct (Poller.inflight s) eqn:?; [discriminate|];
        rewrite poll_settle_thrown in H ];
      inversion H; subst s'; clear H;
      cbn [Poller.poll_issue Poller.executionId Poller.interval Poller.now
           Poller.inflight Poller.timers Poller.requests Poller.delivered
           Poller.toasts Poller.console] in *
  end.

Lemma poller_step_sequential (s s' : Poller.state) (e : Poller.event) :
  Poller.sequential s -> Poller.step s e = Some s' -> Poller.sequential s'.
Proof.
  unfold Poller.sequential. intros Hseq Hstep.
  poller_step Hstep; rewrite ?length_app; cbn [List.length] in *; lia.
Qed.

Lemma poller_step_constants (s s' : Poller.state) (e : Poller.event) :
  Poller.step s e = Some s' ->
  Poller.interval s' = Poller.interval s
  /\ Poller.executionId s' = Poller.executionId s
  /\ Poller.now s <= Poller.now s'.
Proof.
  intros Hstep. poller_step Hstep; repeat split; lia.
Qed.

Lemma poller_run_sequential (evs : list Poller.event) :
  forall s s',
    Poller.sequential s -> Poller.run s evs = Some s' -> Poller.sequential s'.
Proof.
  induction evs as [|e evs IH]; intros s s' Hseq Hrun; cbn in Hrun.
  - inversion Hrun; subst; exact Hseq.
  - destruct (Poller.step s e) as [s1|] eqn:Hstep; [|discriminate].
    eapply IH; [|exact Hrun]. eapply poller_step_sequential; eassumption.
Qed.

Lemma poller_run_constants (evs : list Poller.event) :
  forall s s',
    Poller.run s evs = Some s' ->
    Poller.interval s' = Poller.interval s
    /\ Poller.executionId s' = Poller.executionId s
    /\ Poller.now s <= Poller.now s'.
Proof.
  induction evs as [|e evs IH]; intros s s' Hrun; cbn in Hrun.
  - inversion Hrun; subst. repeat split; lia.
  - destruct (Poller.step s e) as [s1|] eqn:Hstep; [|discriminate].
    destruct (poller_step_constants _ _ _ Hstep) as (Hi & Hx & Hn).
    destruct (IH _ _ Hrun) as (Hi' & Hx' & Hn').
    repeat split; try congruence; lia.
Qed.

Lemma pollExecutionStatus_sequential (executionId : string)
    (interval : option Z) (t0 : Z) (log : list toast) :
  Poller.sequential
    (fst (Poller.pollExecutionStatus executionId interval t0 log)).
Proof. unfold Poller.sequential; cbn. lia. Qed.

(** Once nothing is in flight and no timer is pending, no event issues a
    fetch. *)
Lemma poller_quiescent_forever (evs : list Poller.event) :
  forall s s',
    Poller.quiescent s -> Poller.run s evs = Some s' ->
    Poller.quiescent s' /\ Poller.requests s' = Poller.requests s.
Proof.
  induction evs as [|e evs IH]; intros s s' [Hin Htm] Hrun; cbn in Hrun.
  - inversion Hrun; subst. repeat split; assumption.
  - destruct (Poller.step s e) as [s1|] eqn:Hstep; [|discriminate].
    assert (Hq1 : Poller.quiescent s1 /\
                  Poller.requests s1 = Poller.requests s).
    { unfold Poller.quiescent.
      poller_step Hstep; try congruence; repeat split; assumption. }
    destruct Hq1 as [Hq1 Hr1].
    destruct (IH _ _ Hq1 Hrun) as [Hq' Hr'].
    split; [exact Hq' | congruence].
Qed.

(** While the single pending timer is not yet due, no fetch is issued. *)
Lemma poller_waits_for_timer (due : Z) (evs : list Poller.event) :
  forall s s',
    Poller.inflight s = 0%nat -> Poller.timers s = [due] ->
    Poller.run s evs = Some s' -> Poller.now s' < due ->
    Poller.requests s' = Poller.requests s.
Proof.
  induction evs as [|e evs IH]; intros s s' Hin Htm Hrun Hlt; cbn in Hrun.
  - inversion Hrun; subst. reflexivity.
  - destruct (Poller.step s e) as [s1|] eqn:Hstep; [|discriminate].
    pose proof (poller_run_constants _ _ _ Hrun) as (_ & _ & Hmono).
    poller_step Hstep; try congruence.
    + eapply eq_trans;
        [eapply IH; [| |exact Hrun|exact Hlt]; cbn; assumption|reflexivity].
    + match goal with
      | Hd : (_ <=? _) = true |- _ => apply Z.leb_le in Hd
      end.
      assert (due0 = due) by congruence. subst due0. lia.
    + eapply eq_trans;
        [eapply IH; [| |exact Hrun|exact Hlt]; cbn; assumption|reflexivity].
Qed.

(** C3, as stated, fails in two ways.  A sink that throws on a running
    snapshot has received it, but no next fetch is scheduled: no timer is
    pending and 2000 ms later there is nothing to fire.  And with an
    interval of 2^31 ms the timer set after a running snapshot is due at
    once, so the next fetch goes out after 1 ms, not after the interval. *)
Lemma poll_protocol_counterexample :
  (option_map Poller.delivered
     (Poller.run sample_poller
        [Poller.SinkThrows (mkResponse 200 (sample_status "running"))])
   = Some [sample_status "running"]
   /\ option_map Poller.timers
        (Poller.run sample_poller
           [Poller.SinkThrows (mkResponse 200 (sample_status "running"))])
      = Some []
   /\ Poller.run sample_poller
        [Poller.SinkThrows (mkResponse 200 (sample_status "running"));
         Poller.Advance 2000; Poller.Fire]
      = None)
  /\ (option_map Poller.timers
        (Poller.run
           (fst (Poller.pollExecutionStatus "exec-1" (Some 2147483648) 0 []))
           [Poller.Settle (ok (sample_status "running"))])
      = Some [0]
      /\ option_map Poller.requests
           (Poller.run
              (fst (Poller.pollExecutionStatus "exec-1" (Some 2147483648)
                      0 []))
              [Poller.Settle (ok (sample_status "running"));
               Poller.Advance 1; Poller.Fire])
         = Some [0; 1]).
Proof. vm_compute. repeat split. Qed.

(** C3, amended.  [pollExecutionStatus] issues one status fetch at once, at
    the time of the call, and every fetched snapshot is handed to the sink.
    The terminal statuses are exactly completed, failed and cancelled.
    When the sink returns: after a terminal snapshot nothing is in flight,
    no timer is pending and no later event issues a fetch; after any other
    snapshot, for an interval from 1 to 2^31 - 1 ms (2000 ms unless the
    caller gave another), one timer is pending, due one interval after the
    snapshot, no fetch is issued before it is due, and when it is due it
    issues the next fetch.  When the sink throws, what it threw is caught
    and logged to the console, no notification is added, and polling ends:
    nothing is in flight, no timer is pending and no later event issues a
    fetch. *)
Theorem poll_protocol :
  forall (executionId : string) (interval : option Z) (t0 : Z)
         (log : list toast) (evs : list Poller.event) (s : Poller.state)
         (r : AxiosResponse StatusPolling.t),
    let start :=
      fst (Poller.pollExecutionStatus executionId interval t0 log) in
    let period := match interval with Some i => i | None => 2000 end in
    let returned := Poller.poll_settle true (Fulfilled r) s in
    let thrown := Poller.poll_settle false (Fulfilled r) s in
    Poller.run start evs = Some s ->
    Poller.inflight s = 1%nat ->
    (Poller.requests start = [t0] /\ Poller.inflight start = 1%nat
     /\ Poller.timers start = [] /\ Poller.delivered start = [])
    /\ (Poller.is_terminal (StatusPolling.status (data r)) = true <->
        StatusPolling.status (data r) = "completed"
        \/ StatusPolling.status (data r) = "failed"
        \/ StatusPolling.status (data r) = "cancelled")
    /\ (Poller.step s (Poller.Settle (Fulfilled r)) = Some returned
        /\ Poller.delivered returned = Poller.delivered s ++ [data r]
        /\ (Poller.is_terminal (StatusPolling.status (data r)) = true ->
            Poller.quiescent returned
            /\ forall evs' s',
                 Poller.run returned evs' = Some s' ->
                 Poller.requests s' = Poller.requests returned)
        /\ (Poller.is_terminal (StatusPolling.status (data r)) = false ->
            0 < period < 2 ^ 31 ->
            Poller.inflight returned = 0%nat
            /\ Poller.timers returned = [Poller.now s + period]
            /\ (forall evs' s',
                  Poller.run returned evs' = Some s' ->
                  Poller.now s' < Poller.now s + period ->
                  Poller.requests s' = Poller.requests returned)
            /\ exists s',
                 Poller.run returned [Poller.Advance period; Poller.Fire]
                   = Some s'
                 /\ Poller.requests s'
                    = Poller.requests returned ++ [Poller.now s + period]
                 /\ Poller.inflight s' = 1%nat))
    /\ (Poller.step s (Poller.SinkThrows r) = Some thrown
        /\ Poller.delivered thrown = Poller.delivered s ++ [data r]
        /\ Poller.console thrown
           = Poller.console s ++ ["Error polling execution status:"]
        /\ Poller.toasts thrown = Poller.toasts s
        /\ Poller.quiescent thrown
        /\ forall evs' s',
             Poller.run thrown evs' = Some s' ->
             Poller.requests s' = Poller.requests thrown).
Proof.
  intros executionId interval t0 log evs s r start period returned thrown
         Hrun Hin.
  assert (Hseq : Poller.sequential s).
  { eapply poller_run_sequential; [|exact Hrun].
    apply pollExecutionStatus_sequential. }
  assert (Hper : Poller.interval s = period).
  { destruct (poller_run_constants _ _ _ Hrun) as (Hi & _). rewrite Hi.
    reflexivity. }
  unfold Poller.sequential in Hseq.
  assert (Htm : Poller.timers s = []).
  { destruct (Poller.timers s); [reflexivity | cbn in Hseq; lia]. }
  split; [repeat split|].
  split; [apply is_terminal_spec|].
  split.
  - assert (Hret : returned = Poller.poll_resume (Fulfilled r) s)
      by reflexivity.
    rewrite poll_resume_fulfilled, Hin, Htm, Hper in Hret.
    split; [cbn [Poller.step]; rewrite Hin; reflexivity|].
    split; [rewrite Hret; destruct (Poller.is_terminal _); reflexivity|].
    split.
    + intros Hterm. rewrite Hterm in Hret. rewrite Hret.
      assert (Hq : Poller.quiescent
                     (Poller.mk (Poller.executionId s) period (Poller.now s)
                        (pred 1) [] (Poller.requests s)
                        (Poller.delivered s ++ [data r]) (Poller.toasts s)
                        (Poller.console s))) by (split; reflexivity).
      split; [exact Hq|].
      intros evs' s' Hrun'.
      apply (poller_quiescent_forever _ _ _ Hq Hrun').
    + intros Hterm Hrange. rewrite Hterm in Hret. rewrite Hret.
      rewrite timer_due_in_range by lia.
      split; [reflexivity|]. split; [reflexivity|]. split.
      * intros evs' s' Hrun' Hlt.
        eapply eq_trans;
          [eapply (poller_waits_for_timer (Poller.now s + period));
             [| |exact Hrun'|exact Hlt]; reflexivity
          |reflexivity].
      * cbn [Poller.run run_events Poller.step app Poller.now Poller.timers].
        assert (H0 : (0 <=? period) = true) by (apply Z.leb_le; lia).
        rewrite H0.
        cbn [Poller.now Poller.timers Poller.executionId Poller.interval
             Poller.inflight Poller.requests Poller.delivered Poller.toasts
             Poller.console].
        rewrite Z.leb_refl. eexists. split; [reflexivity|].
        cbn. split; reflexivity.
  - assert (Hthr : thrown = Poller.poll_settle false (Fulfilled r) s)
      by reflexivity.
    rewrite poll_settle_thrown, Hin, Htm in Hthr.
    split; [cbn [Poller.step]; rewrite Hin; reflexivity|].
    rewrite Hthr. cbn [Poller.delivered Poller.console Poller.toasts].
    split; [reflexivity|]. split; [reflexivity|]. split; [reflexivity|].
    assert (Hq : Poller.quiescent
                   (Poller.mk (Poller.executionId s) (Poller.interval s)
                      (Poller.now s) (pred 1) [] (Poller.requests s)
                      (Poller.delivered s ++ [data r]) (Poller.toasts s)
                      (Poller.console s
                         ++ ["Error polling execution status:"])))
      by (split; reflexivity).
    split; [exact Hq|].
    intros evs' s' Hrun'.
    apply (poller_quiescent_forever _ _ _ Hq Hrun').
Qed.

Lemma poll_protocol_witness :
  Poller.delivered
    (Poller.poll_settle true (ok (sample_status "running")) sample_poller)
    = [sample_status "running"]
  /\ Poller.timers
       (Poller.poll_settle true (ok (sample_status "running")) sample_poller)
     = [2000]
  /\ Poller.quiescent
       (Poller.poll_settle false (ok (sample_status "running"))
          sample_poller).
Proof.
  destruct (poll_protocol "exec-1" None 0 [] [] sample_poller
              (mkResponse 200 (sample_status "running"))
              eq_refl eq_refl)
    as (_ & _ & (_ & Hdel & _ & Hnext) & (_ & _ & _ & _ & Hq & _)).
  split; [exact Hdel|].
  destruct (Hnext eq_refl ltac:(cbn; lia)) as (_ & Htm & _).
  split; [exact Htm | exact Hq].
Defined.

(** C9.  In every state a poller can reach, at most one status fetch is
    outstanding.  While one is outstanding no timer can fire, however much
    time has passed, and no event issues another; a step that issues a fetch
    starts from a state with none in flight. *)
Theorem one_fetch_outstanding :
  forall (executionId : string) (interval : option Z) (t0 : Z)
         (log : list toast) (evs : list Poller.event) (s : Poller.state),
    Poller.run (fst (Poller.pollExecutionStatus executionId interval t0 log))
      evs = Some s ->
    (Poller.inflight s <= 1)%nat
    /\ (Poller.inflight s = 1%nat -> Poller.step s Poller.Fire = None)
    /\ (forall e s',
          Poller.step s e = Some s' ->
          Poller.requests s' <> Poller.requests s ->
          Poller.inflight s = 0%nat /\ Poller.inflight s' = 1%nat).
Proof.
  intros executionId interval t0 log evs s Hrun.
  assert (Hseq : Poller.sequential s).
  { eapply poller_run_sequential; [|exact Hrun].
    apply pollExecutionStatus_sequential. }
  unfold Poller.sequential in Hseq.
  split; [lia|]. split.
  - intros Hin. cbn [Poller.step].
    destruct (Poller.timers s); [reflexivity | cbn in Hseq; lia].
  - intros e s' Hstep Hneq.
    poller_step Hstep; try congruence.
    cbn [List.length] in Hseq. split; lia.
Qed.

(** A fetch that stays unresolved for 5000 ms, well past the 2000 ms
    interval: still one fetch in flight and one request issued. *)
Lemma one_fetch_outstanding_witness :
  Poller.run sample_poller [Poller.Advance 5000; Poller.Cancel]
    = Some stalled_poller
  /\ (Poller.inflight stalled_poller <= 1)%nat
  /\ Poller.step stalled_poller Poller.Fire = None.
Proof.
  destruct (one_fetch_outstanding "exec-1" None 0 []
              [Poller.Advance 5000; Poller.Cancel] stalled_poller eq_refl)
    as (Hle & Hfire & _).
  split; [reflexivity|]. split; [exact Hle|]. apply Hfire. reflexivity.
Defined.

(** C1, as stated, fails: after the first fetch of a poller is rejected, no
    timer is pending (a non-terminal snapshot would have left one due at
    2000), and once 2000 ms have passed there is nothing to fire. *)
Lemma failed_fetch_not_rescheduled_counterexample :
  option_map Poller.timers
    (Poller.run sample_poller [Poller.Settle (Rejected network_failure)])
    = Some []
  /\ option_map Poller.timers
       (Poller.run sample_poller [Poller.Settle (ok (sample_status "running"))])
     = Some [2000]
  /\ Poller.run sample_poller
       [Poller.Settle (Rejected network_failure); Poller.Advance 2000;
        Poller.Fire]
     = None.
Proof. repeat split. Qed.

(** C1, amended.  A failed status fetch ends polling.  The failure is
    surfaced once through the transport adapter's notification and logged to
    the console, the sink is not called, no next poll is scheduled, and no
    later event issues a fetch. *)
Theorem failed_fetch_ends_polling :
  forall (executionId : string) (interval : option Z) (t0 : Z)
         (log : list toast) (evs : list Poller.event) (s s' : Poller.state)
         (error : AxiosError),
    Poller.run (fst (Poller.pollExecutionStatus executionId interval t0 log))
      evs = Some s ->
    Poller.step s (Poller.Settle (Rejected error)) = Some s' ->
    Poller.toasts s' =
      Poller.toasts s
        ++ [ToastError (class_message (classify error))]
    /\ Poller.console s' =
         Poller.console s ++ ["Error polling execution status:"]
    /\ Poller.delivered s' = Poller.delivered s
    /\ Poller.quiescent s'
    /\ forall evs' s'',
         Poller.run s' evs' = Some s'' ->
         Poller.requests s'' = Poller.requests s'.
Proof.
  intros executionId interval t0 log evs s s' error Hrun Hstep.
  assert (Hseq : Poller.sequential s).
  { eapply poller_run_sequential; [|exact Hrun].
    apply pollExecutionStatus_sequential. }
  unfold Poller.sequential in Hseq.
  cbn [Poller.step] in Hstep.
  destruct (Poller.inflight s) as [|n] eqn:Hin; [discriminate|].
  assert (Htm : Poller.timers s = []).
  { destruct (Poller.timers s); [reflexivity | cbn in Hseq; lia]. }
  assert (Hn : n = 0%nat) by lia. subst n.
  rewrite poll_resume_rejected, Hin, Htm in Hstep.
  inversion Hstep; subst s'; clear Hstep.
  cbn [Poller.toasts Poller.console Poller.delivered].
  split; [reflexivity|]. split; [reflexivity|]. split; [reflexivity|].
  assert (Hq : Poller.quiescent
    (Poller.mk (Poller.executionId s) (Poller.interval s) (Poller.now s)
       (pred 1) [] (Poller.requests s) (Poller.delivered s)
       (Poller.toasts s
          ++ [ToastError (class_message (classify error))])
       (Poller.console s ++ ["Error polling execution status:"])))
    by (split; reflexivity).
  split; [exact Hq|].
  intros evs' s'' Hrun'. apply (poller_quiescent_forever _ _ _ Hq Hrun').
Qed.

Lemma failed_fetch_ends_polling_witness :
  Poller.toasts (Poller.poll_resume (Rejected network_failure) sample_poller)
    = [ToastError "Network Error"]
  /\ Poller.quiescent
       (Poller.poll_resume (Rejected network_failure) sample_poller).
Proof.
  destruct (failed_fetch_ends_polling "exec-1" None 0 [] [] sample_poller
              (Poller.poll_resume (Rejected network_failure) sample_poller)
              network_failure eq_refl eq_refl)
    as (Htoast & _ & _ & Hq & _).
  split; [exact Htoast | exact Hq].
Defined.

(** C2.  The handle returned by [pollExecutionStatus] never throws and is a
    no-op however often it is invoked, but it does not cancel: the pending
    timer is still there after it has been called, and when that timer is
    due it issues another fetch.  With a poller started at time 0 and a
    first snapshot that is running, the handle is invoked and 2000 ms later
    a second request goes out. *)
Theorem stop_handle_does_not_cancel :
  (forall s : Poller.state,
      snd (Poller.pollExecutionStatus "exec-1" None 0 []) s = s)
  /\ (forall s : Poller.state, Poller.step s Poller.Cancel = Some s)
  /\ option_map Poller.timers
       (Poller.run sample_poller
          [Poller.Settle (ok (sample_status "running")); Poller.Cancel])
     = Some [2000]
  /\ option_map Poller.requests
       (Poller.run sample_poller
          [Poller.Settle (ok (sample_status "running")); Poller.Cancel;
           Poller.Advance 2000; Poller.Fire])
     = Some [0; 2000].
Proof. repeat split. Qed.

(** ** The health monitor *)

Lemma fetchHealth_resume_fulfilled (r : AxiosResponse Health.t)
    (s : Monitor.state) :
  Monitor.fetchHealth_resume (Fulfilled r) s =
  Monitor.mk (Monitor.now s) (Some (data r)) (pred (Monitor.inflight s))
    (Monitor.interval s) (Monitor.requests s) (Monitor.toasts s)
    (Monitor.console s).
Proof. reflexivity. Qed.

Lemma fetchHealth_resume_rejected (error : AxiosError) (s : Monitor.state) :
  Monitor.fetchHealth_resume (Rejected error) s =
  Monitor.mk (Monitor.now s) (Monitor.health s) (pred (Monitor.inflight s))
    (Monitor.interval s) (Monitor.requests s)
    (Monitor.toasts s
       ++ [ToastError (class_message (classify error))])
    (Monitor.console s ++ ["Failed to fetch health:"]).
Proof.
  unfold Monitor.fetchHealth_resume, getHealth.
  rewrite rejected_skips_continuation. reflexivity.
Qed.

Ltac monitor_step H :=
  match type of H with
  | Monitor.step ?s ?e = Some ?s' =>
      let dt := fresh "dt" in
      let r := fresh "r" in
      let error := fresh "error" in
      let due := fresh "due" in
      destruct e as [dt | [r | error] | | ]; cbn [Monitor.step] in H;
      [ destruct (0 <=? dt) eqn:?; [|discriminate]
      | destruct (Monitor.inflight s) eqn:?; [discriminate|];
        rewrite fetchHealth_resume_fulfilled in H
      | destruct (Monitor.inflight s) eqn:?; [discriminate|];
        rewrite fetchHealth_resume_rejected in H
      | destruct (Monitor.interval s) as [due|] eqn:?; [|discriminate];
        destruct (due <=? Monitor.now s) eqn:?; [|discriminate]
      | unfold Monitor.cleanup in H ];
      inversion H; subst s'; clear H;
      cbn [Monitor.fetchHealth_issue Monitor.now Monitor.health
           Monitor.inflight Monitor.interval Monitor.requests Monitor.toasts
           Monitor.console] in *
  end.

Lemma monitor_run_time (evs : list Monitor.event) :
  forall s s',
    Monitor.run s evs = Some s' -> Monitor.now s <= Monitor.now s'.
Proof.
  induction evs as [|e evs IH]; intros s s' Hrun; cbn in Hrun.
  - inversion Hrun; subst. lia.
  - destruct (Monitor.step s e) as [s1|] eqn:Hstep; [|discriminate].
    apply IH in Hrun.
    monitor_step Hstep; cbn [Monitor.now] in Hrun; lia.
Qed.

(** Once the interval is cleared, no event issues a fetch. *)
Lemma monitor_stopped_forever (evs : list Monitor.event) :
  forall s s',
    Monitor.interval s = None -> Monitor.run s evs = Some s' ->
    Monitor.interval s' = None /\ Monitor.requests s' = Monitor.requests s.
Proof.
  induction evs as [|e evs IH]; intros s s' Hnone Hrun; cbn in Hrun.
  - inversion Hrun; subst. split; [assumption | reflexivity].
  - destruct (Monitor.step s e) as [s1|] eqn:Hstep; [|discriminate].
    assert (H1 : Monitor.interval s1 = None /\
                 Monitor.requests s1 = Monitor.requests s).
    { monitor_step Hstep; try congruence; split; (assumption || reflexivity). }
    destruct H1 as [Hn1 Hr1].
    destruct (IH _ _ Hn1 Hrun) as [Hn' Hr'].
    split; [exact Hn' | congruence].
Qed.

(** No refresh is issued before the interval is due. *)
Lemma monitor_waits_for_interval (due : Z) (evs : list Monitor.event) :
  forall s s',
    Monitor.interval s = Some due ->
    Monitor.run s evs = Some s' -> Monitor.now s' < due ->
    Monitor.requests s' = Monitor.requests s.
Proof.
  induction evs as [|e evs IH]; intros s s' Hint Hrun Hlt; cbn in Hrun.
  - inversion Hrun; subst. reflexivity.
  - destruct (Monitor.step s e) as [s1|] eqn:Hstep; [|discriminate].
    pose proof (monitor_run_time _ _ _ Hrun) as Hmono.
    monitor_step Hstep.
    + eapply eq_trans;
        [eapply IH; [|exact Hrun|exact Hlt]; cbn; assumption|reflexivity].
    + eapply eq_trans;
        [eapply IH; [|exact Hrun|exact Hlt]; cbn; assumption|reflexivity].
    + eapply eq_trans;
        [eapply IH; [|exact Hrun|exact Hlt]; cbn; assumption|reflexivity].
    + match goal with
      | Hd : (_ <=? _) = true |- _ => apply Z.leb_le in Hd
      end.
      assert (due0 = due) by congruence. subst due0. lia.
    + eapply eq_trans;
        [eapply monitor_stopped_forever; [|exact Hrun]; reflexivity
        |reflexivity].
Qed.

Lemma monitor_run_armed (evs : list Monitor.event) :
  forall s s',
    armed s -> Monitor.run s evs = Some s' ->
    forallb (fun e => negb (Monitor.is_stop e)) evs = true ->
    armed s'.
Proof.
  induction evs as [|e evs IH]; intros s s' Harm Hrun Hns; cbn in Hrun.
  - inversion Hrun; subst. exact Harm.
  - destruct (Monitor.step s e) as [s1|] eqn:Hstep; [|discriminate].
    cbn [forallb] in Hns. apply andb_true_iff in Hns as [He Hns].
    apply (IH s1 s'); [|exact Hrun|exact Hns].
    destruct Harm as (earlier & latest & Hreq & Hint).
    unfold armed.
    monitor_step Hstep; try discriminate.
    + exists earlier, latest. split; assumption.
    + exists earlier, latest. split; assumption.
    + exists earlier, latest. split; assumption.
    + exists (Monitor.requests s), (Monitor.now s).
      split; reflexivity.
Qed.

(** C8.  Activation issues the first health fetch at once and arms the
    interval 30000 ms later.  Until the cleanup runs the interval stays
    armed, due 30000 ms after the latest refresh: no refresh is issued
    before it is due, and when it is due it issues one and is armed again
    30000 ms on.  A failed refresh leaves the health snapshot as it was and
    the interval armed as it was; a successful one replaces the snapshot.
    The cleanup clears the interval, and no refresh is issued after it. *)
Theorem health_monitor :
  forall (t0 : Z) (log : list toast) (evs : list Monitor.event)
         (s : Monitor.state),
    let start := Monitor.activate t0 log in
    Monitor.run start evs = Some s ->
    (Monitor.requests start = [t0]
     /\ Monitor.interval start = Some (t0 + 30000)
     /\ Monitor.health start = None)
    /\ (forallb (fun e => negb (Monitor.is_stop e)) evs = true ->
        exists (earlier : list Z) (latest : Z),
          Monitor.requests s = earlier ++ [latest]
          /\ Monitor.interval s = Some (latest + 30000)
          /\ (forall evs' s',
                Monitor.run s evs' = Some s' ->
                Monitor.now s' < latest + 30000 ->
                Monitor.requests s' = Monitor.requests s)
          /\ (latest + 30000 <= Monitor.now s ->
              exists s',
                Monitor.step s Monitor.Tick = Some s'
                /\ Monitor.requests s' = Monitor.requests s ++ [Monitor.now s]
                /\ Monitor.interval s' = Some (Monitor.now s + 30000)))
    /\ (forall error s',
          Monitor.step s (Monitor.Settle (Rejected error)) = Some s' ->
          Monitor.health s' = Monitor.health s
          /\ Monitor.interval s' = Monitor.interval s
          /\ Monitor.requests s' = Monitor.requests s)
    /\ (forall r s',
          Monitor.step s (Monitor.Settle (Fulfilled r)) = Some s' ->
          Monitor.health s' = Some (data r))
    /\ (forall s1,
          Monitor.step s Monitor.Stop = Some s1 ->
          Monitor.interval s1 = None
          /\ forall evs' s2,
               Monitor.run s1 evs' = Some s2 ->
               Monitor.requests s2 = Monitor.requests s1).
Proof.
  intros t0 log evs s start Hrun.
  split; [repeat split|].
  split.
  { intros Hns.
    assert (Harm : armed s).
    { apply (monitor_run_armed evs start s); [|exact Hrun|exact Hns].
      exists [], t0. split; reflexivity. }
    destruct Harm as (earlier & latest & Hreq & Hint).
    exists earlier, latest.
    split; [exact Hreq|]. split; [exact Hint|]. split.
    - intros evs' s' Hrun' Hlt.
      apply (monitor_waits_for_interval _ evs' s s' Hint Hrun' Hlt).
    - intros Hdue. cbn [Monitor.step]. rewrite Hint.
      apply Z.leb_le in Hdue. rewrite Hdue.
      eexists. split; [reflexivity|]. split; reflexivity. }
  split.
  { intros error s' Hstep. cbn [Monitor.step] in Hstep.
    destruct (Monitor.inflight s); [discriminate|].
    rewrite fetchHealth_resume_rejected in Hstep.
    inversion Hstep; subst s'. repeat split. }
  split.
  { intros r s' Hstep. cbn [Monitor.step] in Hstep.
    destruct (Monitor.inflight s); [discriminate|].
    rewrite fetchHealth_resume_fulfilled in Hstep.
    inversion Hstep; subst s'. reflexivity. }
  intros s1 Hstep. cbn [Monitor.step] in Hstep.
  inversion Hstep; subst s1. split; [reflexivity|].
  intros evs' s2 Hrun'.
  eapply eq_trans;
    [eapply monitor_stopped_forever; [|exact Hrun']; reflexivity
    |reflexivity].
Qed.

Lemma health_monitor_witness :
  Monitor.run (Monitor.activate 0 [])
    [Monitor.Settle (ok sample_health); Monitor.Advance 30000; Monitor.Tick]
    = Some refreshing_monitor
  /\ Monitor.health
       (Monitor.fetchHealth_resume (Rejected network_failure)
          refreshing_monitor)
     = Some sample_health
  /\ Monitor.interval
       (Monitor.fetchHealth_resume (Rejected network_failure)
          refreshing_monitor)
     = Some 60000.
Proof.
  destruct (health_monitor 0 []
              [Monitor.Settle (ok sample_health); Monitor.Advance 30000;
               Monitor.Tick]
              refreshing_monitor eq_refl)
    as (_ & _ & Hfail & _).
  destruct (Hfail network_failure
              (Monitor.fetchHealth_resume (Rejected network_failure)
                 refreshing_monitor) eq_refl)
    as (Hhealth & Hint & _).
  split; [reflexivity|]. split; [exact Hhealth | exact Hint].
Defined.

(** * Further properties *)

(** ** The aggregator, continued *)

Lemma count_status_app (s : string) (l1 l2 : list Execution.t) :
  count_status s (l1 ++ l2) = count_status s l1 + count_status s l2.
Proof.
  unfold count_status. rewrite filter_app, length_app. lia.
Qed.

Lemma count_status_perm (s : string) (l1 l2 : list Execution.t) :
  Permutation l1 l2 -> count_status s l1 = count_status s l2.
Proof.
  induction 1 as [|e l l' _ IH|a b l|l l' l'' _ IH1 _ IH2].
  - reflexivity.
  - rewrite !count_status_cons, IH. reflexivity.
  - rewrite !count_status_cons. lia.
  - congruence.
Qed.

Lemma count_status_positive (s : string) (l : list Execution.t) :
  (0 <? count_status s l) =
  existsb (fun e => String.eqb (Execution.status e) s) l.
Proof.
  induction l as [|e l IH]; [reflexivity|].
  rewrite count_status_cons. cbn [existsb].
  pose proof (count_status_nonneg s l) as Hnn.
  destruct (String.eqb (Execution.status e) s); cbn [orb].
  - apply Z.ltb_lt. lia.
  - rewrite <- IH. reflexivity.
Qed.

(** X1.  The statistics do not depend on the order of the records: two
    collections that are permutations of each other aggregate to the same
    record. *)
Theorem stats_order_irrelevant :
  forall d1 d2 : ExecutionList.t,
    Permutation (ExecutionList.executions d1) (ExecutionList.executions d2) ->
    stats (Some d1) = stats (Some d2).
Proof.
  intros d1 d2 Hperm. unfold stats. rewrite !stats_pass_counts. cbn [fst].
  rewrite (Permutation_length Hperm).
  rewrite (count_status_perm "running" _ _ Hperm).
  rewrite (count_status_perm "completed" _ _ Hperm).
  rewrite (count_status_perm "failed" _ _ Hperm).
  reflexivity.
Qed.

Lemma stats_order_irrelevant_witness :
  stats (Some sample_page)
  = stats (Some (ExecutionList.mk
                   (rev (ExecutionList.executions sample_page)) 6 0 10)).
Proof.
  apply stats_order_irrelevant. cbn [ExecutionList.executions].
  apply Permutation_rev.
Defined.

(** X2.  The statistics are additive: the record of a collection that is
    the concatenation of two others is the field-wise sum of their
    records. *)
Theorem stats_additive :
  forall d d1 d2 : ExecutionList.t,
    ExecutionList.executions d
      = ExecutionList.executions d1 ++ ExecutionList.executions d2 ->
    stats (Some d) = add_stats (stats (Some d1)) (stats (Some d2)).
Proof.
  intros d d1 d2 Happ. unfold stats. rewrite !stats_pass_counts, Happ.
  cbn [fst]. unfold add_stats.
  cbn [totalExecutions activeExecutions completedExecutions failedExecutions
       averageExecutionTime totalTokensUsed totalCost].
  rewrite !count_status_app, length_app, Nat2Z.inj_add. reflexivity.
Qed.

Lemma stats_additive_witness :
  stats (Some (ExecutionList.mk
                 (ExecutionList.executions sample_page
                    ++ ExecutionList.executions sample_page) 12 0 20))
  = add_stats (stats (Some sample_page)) (stats (Some sample_page)).
Proof.
  apply stats_additive. reflexivity.
Defined.

Lemma counted_statuses (l : list Execution.t) :
  count_status "running" l + count_status "completed" l
    + count_status "failed" l <= Z.of_nat (List.length l)
  /\ (count_status "running" l + count_status "completed" l
        + count_status "failed" l = Z.of_nat (List.length l)
      <-> Forall (fun e => Execution.status e = "running"
                           \/ Execution.status e = "completed"
                           \/ Execution.status e = "failed") l).
Proof.
  induction l as [|e l [IHle IHeq]].
  - split; [cbn; lia|]. split; [constructor | reflexivity].
  - rewrite !count_status_cons. cbn [List.length]. rewrite Nat2Z.inj_succ.
    destruct (String.eqb_spec (Execution.status e) "running") as [E1|N1].
    { rewrite E1. cbn [String.eqb Ascii.eqb Bool.eqb].
      split; [lia|]. split.
      - intros H. constructor; [auto|]. apply IHeq. lia.
      - intros H. inversion H; subst. apply IHeq in H3. lia. }
    destruct (String.eqb_spec (Execution.status e) "completed") as [E2|N2].
    { rewrite E2. cbn [String.eqb Ascii.eqb Bool.eqb].
      split; [lia|]. split.
      - intros H. constructor; [auto|]. apply IHeq. lia.
      - intros H. inversion H; subst. apply IHeq in H3. lia. }
    destruct (String.eqb_spec (Execution.status e) "failed") as [E3|N3].
    { split; [lia|]. split.
      - intros H. constructor; [auto|]. apply IHeq. lia.
      - intros H. inversion H; subst. apply IHeq in H3. lia. }
    split; [lia|]. split.
    + intros H. lia.
    + intros H. inversion H; subst. intuition congruence.
Qed.

(** X3.  Whatever the status strings are, each of the three counters is
    between zero and the total, their sum is at most the total, and the sum
    equals the total exactly when every record is running, completed or
    failed. *)
Theorem stats_counters_bounded :
  forall d : ExecutionList.t,
    let r := stats (Some d) in
    (0 <= activeExecutions r /\ 0 <= completedExecutions r
     /\ 0 <= failedExecutions r)
    /\ activeExecutions r + completedExecutions r + failedExecutions r
       <= totalExecutions r
    /\ (activeExecutions r + completedExecutions r + failedExecutions r
          = totalExecutions r
        <-> Forall (fun e => Execution.status e = "running"
                             \/ Execution.status e = "completed"
                             \/ Execution.status e = "failed")
                   (ExecutionList.executions d)).
Proof.
  intros d r. subst r. unfold stats. rewrite stats_pass_counts.
  cbn [fst totalExecutions activeExecutions completedExecutions
       failedExecutions].
  split; [repeat split; apply count_status_nonneg|].
  apply counted_statuses.
Qed.

(** X4.  The four stat cards show, in order, the total and the numbers of
    running, completed and failed records.  The total has no arrow; the
    active card has an up arrow exactly when some record is running; the
    failed card has a down arrow exactly when some record has failed; the
    completed card has an up arrow always, also with nothing completed. *)
Theorem statCards_of_data :
  forall d : ExecutionList.t,
    let l := ExecutionList.executions d in
    let cards := Dashboard.statCards (stats (Some d)) in
    map Dashboard.value cards
      = [Z.of_nat (List.length l); count_status "running" l;
         count_status "completed" l; count_status "failed" l]
    /\ map Dashboard.trend_arrow cards
       = [None;
          if existsb (fun e => String.eqb (Execution.status e) "running") l
          then Some "ArrowTrendingUpIcon" else None;
          Some "ArrowTrendingUpIcon";
          if existsb (fun e => String.eqb (Execution.status e) "failed") l
          then Some "ArrowTrendingDownIcon" else None].
Proof.
  intros d l cards. subst cards. unfold stats. fold l.
  rewrite stats_pass_counts. cbn [fst]. unfold Dashboard.statCards.
  cbn [map Dashboard.value totalExecutions activeExecutions
       completedExecutions failedExecutions].
  split; [reflexivity|].
  unfold Dashboard.trend_arrow. cbn [Dashboard.trend].
  rewrite !count_status_positive.
  destruct (existsb _ l); destruct (existsb _ l); reflexivity.
Qed.

(** ** The dashboard's table and badges *)

(** X5.  While the query is loading the card shows five placeholders,
    whatever data is cached.  Once it is not, the notice "No executions yet"
    is shown exactly when data is there and holds no record; otherwise the
    table has one row per record, in order and keyed by execution id.  With
    no data at all (the query failed) the table is shown without rows, not
    the notice. *)
Theorem recent_view :
  forall (d : ExecutionList.t) (data : option ExecutionList.t),
    Dashboard.recent true data = Dashboard.Skeleton 5
    /\ (Dashboard.recent false (Some d) = Dashboard.NoExecutions
        <-> ExecutionList.executions d = [])
    /\ (Dashboard.recent false (Some d) <> Dashboard.NoExecutions ->
        exists rows,
          Dashboard.recent false (Some d) = Dashboard.Table rows
          /\ map Dashboard.key rows
             = map Execution.execution_id (ExecutionList.executions d)
          /\ List.length rows = List.length (ExecutionList.executions d)
          /\ rows <> [])
    /\ Dashboard.recent false None = Dashboard.Table [].
Proof.
  intros d data. unfold Dashboard.recent.
  split; [reflexivity|].
  destruct (ExecutionList.executions d) as [|e l] eqn:Hl;
    cbn [List.length Nat.eqb].
  - split; [split; reflexivity|]. split; [congruence | reflexivity].
  - split; [split; discriminate|]. split; [|reflexivity].
    intros _. eexists. split; [reflexivity|].
    rewrite map_map, length_map. cbn [Dashboard.key Dashboard.row].
    repeat split; discriminate.
Qed.

(** X6.  A record's badge and the counters agree: the badge shows the clock
    icon exactly when the record is counted in none of active, completed and
    failed, and the yellow default colour exactly when its status is none of
    completed, running, failed and cancelled.  A cancelled record thus has
    its own colour but the clock icon. *)
Theorem badge_matches_counters :
  forall e : Execution.t,
    (Dashboard.getStatusIcon (Execution.status e) = "ClockIcon"
     <-> has_status "running" e + has_status "completed" e
         + has_status "failed" e = 0)
    /\ (Dashboard.getStatusColor (Execution.status e)
          = "bg-yellow-100 text-yellow-800"
        <-> Execution.status e <> "completed"
            /\ Execution.status e <> "running"
            /\ Execution.status e <> "failed"
            /\ Execution.status e <> "cancelled").
Proof.
  intros e. unfold Dashboard.getStatusIcon, Dashboard.getStatusColor,
    has_status.
  destruct (String.eqb_spec (Execution.status e) "completed") as [E1|N1].
  { rewrite E1. cbn. split; split; try discriminate; try lia.
    intros (H & _); congruence. }
  destruct (String.eqb_spec (Execution.status e) "running") as [E2|N2].
  { rewrite E2. cbn. split; split; try discriminate; try lia.
    intros (_ & H & _); congruence. }
  destruct (String.eqb_spec (Execution.status e) "failed") as [E3|N3].
  { split; split; try discriminate; try lia.
    intros (_ & _ & H & _); congruence. }
  split; [split; [lia | reflexivity]|].
  destruct (String.eqb_spec (Execution.status e) "cancelled") as [E4|N4].
  - split; [discriminate|]. intros (_ & _ & _ & H); congruence.
  - split; [auto | reflexivity].
Qed.

(** ** Uptime *)

Lemma uptime_parts (seconds : Z) :
  0 <= seconds ->
  Z.rem seconds 3600 = seconds mod 3600
  /\ 0 <= seconds / 3600
  /\ 0 <= seconds mod 3600 / 60 < 60
  /\ 3600 * (seconds / 3600) + 60 * (seconds mod 3600 / 60) <= seconds
  /\ seconds < 3600 * (seconds / 3600) + 60 * (seconds mod 3600 / 60) + 60.
Proof.
  intros Hnn.
  split; [apply Z.rem_mod_nonneg; lia|].
  pose proof (Z.div_mod seconds 3600 ltac:(lia)) as Hdm.
  pose proof (Z.mod_pos_bound seconds 3600 ltac:(lia)) as Hm.
  pose proof (Z.div_mod (seconds mod 3600) 60 ltac:(lia)) as Hdm'.
  pose proof (Z.mod_pos_bound (seconds mod 3600) 60 ltac:(lia)) as Hm'.
  assert (0 <= seconds / 3600) by (apply Z.div_pos; lia).
  assert (0 <= seconds mod 3600 / 60) by (apply Z.div_pos; lia).
  assert (seconds mod 3600 / 60 < 60)
    by (apply Z.div_lt_upper_bound; lia).
  repeat split; lia.
Qed.

(** X7.  For an uptime of a non-negative whole number of seconds, the
    header shows whole hours and the whole minutes of the remainder: the
    minutes are below 60, hours and minutes together are at most the uptime
    and less than a minute short of it, and the hours are shown exactly from
    3600 seconds on. *)
Theorem formatUptime_parts :
  forall seconds : Z,
    0 <= seconds ->
    let hours := seconds / 3600 in
    let minutes := Z.rem seconds 3600 / 60 in
    0 <= hours /\ 0 <= minutes < 60
    /\ 3600 * hours + 60 * minutes <= seconds < 3600 * hours + 60 * minutes + 60
    /\ Header.formatUptime seconds
       = (if seconds <? 3600 then (show minutes ++ "m")%string
          else (show hours ++ "h " ++ show minutes ++ "m")%string).
Proof.
  intros seconds Hnn hours minutes. subst hours minutes.
  destruct (uptime_parts seconds Hnn) as (Hrem & Hh & Hm & Hlo & Hhi).
  rewrite Hrem.
  split; [exact Hh|]. split; [exact Hm|]. split; [split; assumption|].
  unfold Header.formatUptime. rewrite Hrem.
  destruct (seconds <? 3600) eqn:Hlt.
  - apply Z.ltb_lt in Hlt.
    assert (Hz : seconds / 3600 = 0) by (apply Z.div_small; lia).
    rewrite Hz. reflexivity.
  - apply Z.ltb_ge in Hlt.
    assert (Hpos : (0 <? seconds / 3600) = true).
    { apply Z.ltb_lt. apply Z.div_str_pos. lia. }
    rewrite Hpos. reflexivity.
Qed.

Lemma formatUptime_parts_witness :
  Header.formatUptime 3725 = "1h 2m" /\ Header.formatUptime 125 = "2m".
Proof.
  destruct (formatUptime_parts 3725 ltac:(lia)) as (_ & _ & _ & H1).
  destruct (formatUptime_parts 125 ltac:(lia)) as (_ & _ & _ & H2).
  split; [rewrite H1 | rewrite H2]; reflexivity.
Defined.

(** X8.  The dashboard's health card and the header print the same uptime
    from 3600 seconds on; below that the card prefixes "0h " to what the
    header prints.  This holds for every non-negative whole number of
    seconds. *)
Theorem uptime_card_and_header :
  forall seconds : Z,
    0 <= seconds ->
    Dashboard.uptime seconds
    = ((if (seconds <? 3600)%Z then "0h " else "")
       ++ Header.formatUptime seconds)%string.
Proof.
  intros seconds Hnn. unfold Dashboard.uptime, Header.formatUptime.
  destruct (seconds <? 3600) eqn:Hlt.
  - apply Z.ltb_lt in Hlt.
    assert (Hz : seconds / 3600 = 0) by (apply Z.div_small; lia).
    rewrite Hz. reflexivity.
  - apply Z.ltb_ge in Hlt.
    assert (Hpos : (0 <? seconds / 3600) = true).
    { apply Z.ltb_lt. apply Z.div_str_pos. lia. }
    rewrite Hpos. reflexivity.
Qed.

Lemma uptime_card_and_header_witness :
  Dashboard.uptime 125 = "0h 2m" /\ Dashboard.uptime 3725 = "1h 2m".
Proof.
  split.
  - rewrite (uptime_card_and_header 125 ltac:(lia)). reflexivity.
  - rewrite (uptime_card_and_header 3725 ltac:(lia)). reflexivity.
Defined.

(** ** The status poller, continued *)

(** A property kept by every enabled step holds along every run. *)
Lemma run_events_invariant {St Ev : Type} (step : St -> Ev -> option St)
    (P : St -> Prop) :
  (forall s e s', P s -> step s e = Some s' -> P s') ->
  forall evs s s', P s -> run_events step s evs = Some s' -> P s'.
Proof.
  intros Hstep. induction evs as [|e evs IH]; intros s s' HP Hrun;
    cbn in Hrun.
  - inversion Hrun; subst. exact HP.
  - destruct (step s e) as [s1|] eqn:He; [|discriminate].
    apply (IH s1 s'); [|exact Hrun]. apply (Hstep s e s1 HP He).
Qed.

Lemma poller_trace (evs : list Poller.event) :
  forall s s',
    Poller.run s evs = Some s' ->
    Poller.delivered s' = Poller.delivered s ++ fulfilled_snapshots evs
    /\ Poller.toasts s' = Poller.toasts s ++ map notice (rejected_errors evs)
    /\ (List.length (Poller.console s')
        = List.length (Poller.console s)
          + List.length (rejected_errors evs)
          + List.length (sink_failures evs))%nat
    /\ (List.length (Poller.requests s') + List.length (Poller.delivered s)
        + Poller.inflight s
        = List.length (Poller.requests s) + List.length (Poller.delivered s')
          + Poller.inflight s' + List.length (rejected_errors evs))%nat.
Proof.
  induction evs as [|e evs IH]; intros s s' Hrun; cbn in Hrun.
  - inversion Hrun; subst. cbn. rewrite !app_nil_r. repeat split; lia.
  - destruct (Poller.step s e) as [s1|] eqn:Hstep; [|discriminate].
    destruct (IH _ _ Hrun) as (Hd & Ht & Hc & Ha).
    rewrite Hd, Ht, Hc. rewrite Hd in Ha. clear IH Hrun Hd Ht Hc.
    poller_step Hstep;
      cbn [fulfilled_snapshots rejected_errors sink_failures flat_map map
           app] in *;
      fold (fulfilled_snapshots evs) in *;
      fold (rejected_errors evs) in *;
      fold (sink_failures evs) in *;
      rewrite <- ?app_assoc; rewrite ?length_app in *;
      cbn [List.length app Nat.pred] in *;
      (split; [reflexivity|]); (split; [reflexivity|]); split; lia.
Qed.

(** X9.  The sink is handed exactly the snapshots of the fulfilled fetches,
    each once and in the order the fetches settled.  Each rejected fetch
    adds one error notification, the one of its class, and the poller adds
    no other notification; the console gets one line per rejected fetch and
    one per snapshot the sink threw on, and nothing else. *)
Theorem poller_deliveries :
  forall (executionId : string) (interval : option Z) (t0 : Z)
         (log : list toast) (evs : list Poller.event) (s : Poller.state),
    Poller.run (fst (Poller.pollExecutionStatus executionId interval t0 log))
      evs = Some s ->
    Poller.delivered s = fulfilled_snapshots evs
    /\ Poller.toasts s = log ++ map notice (rejected_errors evs)
    /\ (List.length (Poller.console s)
        = List.length (rejected_errors evs)
          + List.length (sink_failures evs))%nat.
Proof.
  intros executionId interval t0 log evs s Hrun.
  destruct (poller_trace _ _ _ Hrun) as (Hd & Ht & Hc & _).
  rewrite Hd, Ht, Hc. repeat split.
Qed.

Lemma poller_deliveries_witness :
  Poller.delivered
    (Poller.mk "exec-1" 2000 2000 0 [] [0; 2000]
       [sample_status "running"; sample_status "running"] []
       ["Error polling execution status:"])
  = [sample_status "running"; sample_status "running"].
Proof.
  destruct (poller_deliveries "exec-1" None 0 []
              [Poller.Settle (ok (sample_status "running"));
               Poller.Advance 2000; Poller.Fire;
               Poller.SinkThrows (mkResponse 200 (sample_status "running"))]
              (Poller.mk "exec-1" 2000 2000 0 [] [0; 2000]
                 [sample_status "running"; sample_status "running"] []
                 ["Error polling execution status:"])
              eq_refl) as (Hd & _).
  exact Hd.
Defined.

(** X10.  Every status request is accounted for: in every run the number
    of requests issued is the number of snapshots handed to the sink plus
    the number of fetches rejected plus the number still in flight. *)
Theorem poller_accounting :
  forall (executionId : string) (interval : option Z) (t0 : Z)
         (log : list toast) (evs : list Poller.event) (s : Poller.state),
    Poller.run (fst (Poller.pollExecutionStatus executionId interval t0 log))
      evs = Some s ->
    (List.length (Poller.requests s)
     = List.length (Poller.delivered s) + List.length (rejected_errors evs)
       + Poller.inflight s)%nat.
Proof.
  intros executionId interval t0 log evs s Hrun.
  destruct (poller_trace _ _ _ Hrun) as (_ & _ & _ & Ha).
  cbn in Ha. lia.
Qed.

Lemma poller_accounting_witness :
  (List.length (Poller.requests rejected_second_poll) = 1 + 1 + 0)%nat.
Proof.
  apply (poller_accounting "exec-1" None 0 []
           [Poller.Settle (ok (sample_status "running"));
            Poller.Advance 2000; Poller.Fire;
            Poller.Settle (Rejected network_failure)]
           rejected_second_poll).
  reflexivity.
Defined.

Lemma poller_step_terminal_last (s s' : Poller.state) (e : Poller.event) :
  terminal_last s -> Poller.step s e = Some s' -> terminal_last s'.
Proof.
  intros (Hseq & Hq & Hrl) Hstep.
  pose proof (poller_step_sequential _ _ _ Hseq Hstep) as Hseq'.
  unfold terminal_last. split; [exact Hseq'|].
  unfold Poller.sequential, Poller.quiescent in *.
  assert (Hbusy : (Poller.inflight s <> 0)%nat \/ Poller.timers s <> [] ->
                  Forall nonterminal (Poller.delivered s)).
  { intros Hb. destruct Hq as [[Hi Ht]|Hall]; [|exact Hall].
    destruct Hb; contradiction. }
  clear Hq.
  poller_step Hstep; cbn [List.length] in *.
  - split; [|exact Hrl].
    destruct (Nat.eq_dec (Poller.inflight s) 0) as [Hi|Hi];
      [|right; apply Hbusy; left; exact Hi].
    destruct (Poller.timers s) eqn:Ht;
      [left; split; [exact Hi | reflexivity]
      |right; apply Hbusy; right; discriminate].
  - rewrite removelast_last.
    assert (Hall : Forall nonterminal (Poller.delivered s))
      by (apply Hbusy; left; lia).
    split; [|exact Hall]. left.
    split; [lia|]. destruct (Poller.timers s); [reflexivity|].
    cbn [List.length] in Hseq. lia.
  - rewrite removelast_last.
    assert (Hall : Forall nonterminal (Poller.delivered s))
      by (apply Hbusy; left; lia).
    split; [|exact Hall]. right.
    apply Forall_app. split; [exact Hall|].
    constructor; [assumption | constructor].
  - assert (Hall : Forall nonterminal (Poller.delivered s))
      by (apply Hbusy; left; lia).
    split; [right; exact Hall | exact Hrl].
  - assert (Hall : Forall nonterminal (Poller.delivered s))
      by (apply Hbusy; right; discriminate).
    split; [right; exact Hall | exact Hrl].
  - split; [|exact Hrl].
    destruct (Nat.eq_dec (Poller.inflight s) 0) as [Hi|Hi];
      [|right; apply Hbusy; left; exact Hi].
    destruct (Poller.timers s) eqn:Ht;
      [left; split; [exact Hi | reflexivity]
      |right; apply Hbusy; right; discriminate].
  - rewrite removelast_last.
    assert (Hall : Forall nonterminal (Poller.delivered s))
      by (apply Hbusy; left; lia).
    split; [|exact Hall]. left.
    split; [lia|]. destruct (Poller.timers s); [reflexivity|].
    cbn [List.length] in Hseq. lia.
Qed.

(** X11.  The sink never receives a snapshot after a terminal one: in every
    reachable state a terminal snapshot among those delivered is the last
    one delivered, and once it has been delivered nothing is in flight and
    no timer is pending. *)
Theorem terminal_snapshot_is_last :
  forall (executionId : string) (interval : option Z) (t0 : Z)
         (log : list toast) (evs : list Poller.event) (s : Poller.state)
         (before after : list StatusPolling.t) (x : StatusPolling.t),
    Poller.run (fst (Poller.pollExecutionStatus executionId interval t0 log))
      evs = Some s ->
    Poller.delivered s = before ++ x :: after ->
    Poller.is_terminal (StatusPolling.status x) = true ->
    after = [] /\ Poller.quiescent s.
Proof.
  intros executionId interval t0 log evs s before after x Hrun Hdel Hterm.
  assert (HJ : terminal_last s).
  { eapply (run_events_invariant Poller.step _
              (fun a e b => poller_step_terminal_last a b e) evs);
      [|exact Hrun].
    split; [apply pollExecutionStatus_sequential|].
    split; [right; constructor | constructor]. }
  destruct HJ as (_ & Hq & Hrl).
  assert (Hafter : after = []).
  { destruct after as [|y after]; [reflexivity|]. exfalso.
    rewrite Hdel in Hrl.
    rewrite removelast_app in Hrl by discriminate.
    apply Forall_app in Hrl as [_ Hrl].
    cbn [removelast] in Hrl. inversion Hrl as [|? ? Hx _]; subst.
    unfold nonterminal in Hx. congruence. }
  split; [exact Hafter|].
  destruct Hq as [Hq|Hall]; [exact Hq|]. exfalso.
  rewrite Hdel in Hall. apply Forall_app in Hall as [_ Hall].
  inversion Hall as [|? ? Hx _]; subst.
  unfold nonterminal in Hx. congruence.
Qed.

Lemma terminal_snapshot_is_last_witness :
  Poller.quiescent
    (Poller.mk "exec-1" 2000 2000 0 [] [0; 2000]
       [sample_status "running"; sample_status "completed"] [] []).
Proof.
  destruct (terminal_snapshot_is_last "exec-1" None 0 []
              [Poller.Settle (ok (sample_status "running"));
               Poller.Advance 2000; Poller.Fire;
               Poller.Settle (ok (sample_status "completed"))]
              (Poller.mk "exec-1" 2000 2000 0 [] [0; 2000]
                 [sample_status "running"; sample_status "completed"] [] [])
              [sample_status "running"] [] (sample_status "completed")
              eq_refl eq_refl eq_refl) as (_ & Hq).
  exact Hq.
Defined.

Lemma spaced_snoc (d a b : Z) (l : list Z) :
  spaced d (l ++ [a]) -> a + d <= b -> spaced d ((l ++ [a]) ++ [b]).
Proof.
  intros Hsp Hab. induction l as [|x l IH].
  - cbn. split; [exact Hab | exact I].
  - destruct l as [|y l].
    + cbn in *. destruct Hsp as [Hxa _]. repeat split; assumption.
    + cbn [app spaced] in *. destruct Hsp as [Hxy Hrest].
      split; [exact Hxy|]. apply IH. exact Hrest.
Qed.

Lemma poller_step_paced (t0 d : Z) (s s' : Poller.state)
    (e : Poller.event) :
  0 <= d < 2 ^ 31 ->
  paced t0 d s -> Poller.step s e = Some s' -> paced t0 d s'.
Proof.
  intros Hrange
         (Hseq & Hint & Hsp & (later & Hhd) & earlier & latest & Hreq & Hnow
          & Hdue)
         Hstep.
  pose proof (poller_step_sequential _ _ _ Hseq Hstep) as Hseq'.
  unfold paced. split; [exact Hseq'|]. clear Hseq'.
  unfold Poller.sequential in Hseq.
  poller_step Hstep; (split; [exact Hint|]).
  - split; [exact Hsp|]. split; [exists later; exact Hhd|].
    exists earlier, latest.
    match goal with H : (0 <=? _) = true |- _ => apply Z.leb_le in H end.
    repeat split; [exact Hreq | lia | exact Hdue].
  - split; [exact Hsp|]. split; [exists later; exact Hhd|].
    exists earlier, latest. repeat split; assumption.
  - split; [exact Hsp|]. split; [exists later; exact Hhd|].
    exists earlier, latest. split; [exact Hreq|]. split; [exact Hnow|].
    apply Forall_app. split; [exact Hdue|].
    constructor; [|constructor].
    rewrite Hint, timer_due_in_range by exact Hrange. lia.
  - split; [exact Hsp|]. split; [exists later; exact Hhd|].
    exists earlier, latest. repeat split; assumption.
  - match goal with H : (_ <=? _) = true |- _ => apply Z.leb_le in H end.
    inversion Hdue as [|? ? Hd0 Hrest]; subst.
    assert (rest = []).
    { destruct rest; [reflexivity | cbn [List.length] in Hseq; lia]. }
    subst rest.
    split; [rewrite Hreq; apply spaced_snoc; [rewrite <- Hreq; exact Hsp|lia]|].
    split; [exists (later ++ [Poller.now s]); rewrite Hhd; reflexivity|].
    exists (Poller.requests s), (Poller.now s).
    split; [reflexivity|]. split; [lia | constructor].
  - split; [exact Hsp|]. split; [exists later; exact Hhd|].
    exists earlier, latest. repeat split; assumption.
  - split; [exact Hsp|]. split; [exists later; exact Hhd|].
    exists earlier, latest. repeat split; assumption.
Qed.

(** X12.  The requests of a poller are paced: for an interval from 0 to
    2^31 - 1 ms (2000 ms unless the caller gave another), the first request
    is issued at the time of the call and any two consecutive requests are
    at least one interval apart, in every run, whether the sink returns or
    throws. *)
Theorem poller_requests_paced :
  forall (executionId : string) (interval : option Z) (t0 : Z)
         (log : list toast) (evs : list Poller.event) (s : Poller.state),
    let period := match interval with Some i => i | None => 2000 end in
    0 <= period < 2 ^ 31 ->
    Poller.run (fst (Poller.pollExecutionStatus executionId interval t0 log))
      evs = Some s ->
    (exists later, Poller.requests s = t0 :: later)
    /\ spaced period (Poller.requests s).
Proof.
  intros executionId interval t0 log evs s period Hrange Hrun.
  assert (HK : paced t0 period s).
  { eapply (run_events_invariant Poller.step _
              (fun a e b => poller_step_paced t0 period a b e Hrange) evs);
      [|exact Hrun].
    split; [apply pollExecutionStatus_sequential|].
    split; [reflexivity|].
    split; [exact I|]. split; [exists []; reflexivity|].
    exists [], t0. cbn. repeat split; [lia | constructor]. }
  destruct HK as (_ & _ & Hsp & Hhd & _).
  split; [exact Hhd | exact Hsp].
Qed.

Lemma poller_requests_paced_witness :
  spaced 2000
    (Poller.requests
       (Poller.mk "exec-1" 2000 2500 1 [] [0; 2500]
          [sample_status "running"] [] [])).
Proof.
  destruct (poller_requests_paced "exec-1" None 0 []
              [Poller.Settle (ok (sample_status "running"));
               Poller.Advance 2500; Poller.Fire]
              (Poller.mk "exec-1" 2000 2500 1 [] [0; 2500]
                 [sample_status "running"] [] [])
              ltac:(cbn; lia) eq_refl) as (_ & Hsp).
  exact Hsp.
Defined.

(** ** The health monitor, continued *)

Lemma monitor_trace_health (evs : list Monitor.event) :
  forall s s',
    Monitor.run s evs = Some s' ->
    Monitor.health s' = latest_health (Monitor.health s) evs.
Proof.
  induction evs as [|e evs IH]; intros s s' Hrun; cbn in Hrun.
  - inversion Hrun; subst. reflexivity.
  - destruct (Monitor.step s e) as [s1|] eqn:Hstep; [|discriminate].
    rewrite (IH _ _ Hrun). clear IH Hrun.
    unfold latest_health. cbn [fold_left].
    monitor_step Hstep; reflexivity.
Qed.

(** X13.  While the monitor is active the health snapshot on display is the
    payload of the fulfilled fetch that settled last, and there is none
    until a fetch has been fulfilled; rejected fetches, ticks and the
    passing of time leave it as it is. *)
Theorem health_is_latest_fulfilled :
  forall (t0 : Z) (log : list toast) (evs : list Monitor.event)
         (s : Monitor.state),
    Monitor.run (Monitor.activate t0 log) evs = Some s ->
    forallb (fun e => negb (Monitor.is_stop e)) evs = true ->
    Monitor.health s = latest_health None evs.
Proof.
  intros t0 log evs s Hrun _.
  apply (monitor_trace_health evs _ _ Hrun).
Qed.

Lemma health_is_latest_fulfilled_witness :
  Monitor.health refreshing_monitor = Some sample_health.
Proof.
  apply (health_is_latest_fulfilled 0 []
           [Monitor.Settle (ok sample_health); Monitor.Advance 30000;
            Monitor.Tick] refreshing_monitor eq_refl eq_refl).
Defined.

Lemma monitor_step_refreshed (s s' : Monitor.state) (e : Monitor.event) :
  refreshed s -> Monitor.step s e = Some s' -> refreshed s'.
Proof.
  intros (Hsp & earlier & latest & Hreq & Hnow & Hint) Hstep.
  unfold refreshed.
  monitor_step Hstep.
  - match goal with H : (0 <=? _) = true |- _ => apply Z.leb_le in H end.
    split; [exact Hsp|]. exists earlier, latest.
    repeat split; [exact Hreq | lia | exact Hint].
  - split; [exact Hsp|]. exists earlier, latest. repeat split; assumption.
  - split; [exact Hsp|]. exists earlier, latest. repeat split; assumption.
  - match goal with H : (_ <=? _) = true |- _ => apply Z.leb_le in H end.
    assert (Hdue : due = latest + 30000)
      by (destruct Hint as [Hn|Hs]; congruence).
    split; [rewrite Hreq; apply spaced_snoc; [rewrite <- Hreq; exact Hsp|lia]|].
    exists (Monitor.requests s), (Monitor.now s).
    split; [reflexivity|]. split; [lia|]. right. reflexivity.
  - split; [exact Hsp|]. exists earlier, latest.
    repeat split; [exact Hreq | exact Hnow | left; reflexivity].
Qed.

(** X15.  The refreshes of the health monitor keep their distance: the
    first is issued at activation, and any two consecutive ones are at
    least 30000 ms apart, in every run, with or without a stop. *)
Theorem health_refreshes_paced :
  forall (t0 : Z) (log : list toast) (evs : list Monitor.event)
         (s : Monitor.state),
    Monitor.run (Monitor.activate t0 log) evs = Some s ->
    spaced 30000 (Monitor.requests s)
    /\ exists earlier latest,
         Monitor.requests s = earlier ++ [latest]
         /\ latest <= Monitor.now s.
Proof.
  intros t0 log evs s Hrun.
  assert (HR : refreshed s).
  { eapply (run_events_invariant Monitor.step _
              (fun a e b => monitor_step_refreshed a b e) evs);
      [|exact Hrun].
    split; [exact I|]. exists [], t0. cbn.
    repeat split; [lia | right; reflexivity]. }
  destruct HR as (Hsp & earlier & latest & Hreq & Hnow & _).
  split; [exact Hsp|]. exists earlier, latest. split; assumption.
Qed.

Lemma health_refreshes_paced_witness :
  spaced 30000 (Monitor.requests refreshing_monitor).
Proof.
  destruct (health_refreshes_paced 0 []
              [Monitor.Settle (ok sample_health); Monitor.Advance 30000;
               Monitor.Tick] refreshing_monitor eq_refl) as (Hsp & _).
  exact Hsp.
Defined.

(** ** The quick task form *)

(** X16.  When the create request of a submitted form settles: on success
    the fields are reset, the panel is closed, and exactly one success
    notification is added; on failure the fields keep what the user
    entered, the panel stays as it was, one error notification of the
    failure's class is added and the failure is logged.  Either way the
    submit button is enabled again. *)
Theorem quick_task_outcome :
  forall (Data : Type) (defaults : Data) (s : QuickTaskForm.state Data)
         (data : Data) (rest : list Data) (r : AxiosResponse Execution.t)
         (error : AxiosError),
    QuickTaskForm.pending s = data :: rest ->
    (exists s',
        QuickTaskForm.step Data defaults s
          (QuickTaskForm.Settle (Fulfilled r)) = Some s'
        /\ QuickTaskForm.values s' = defaults
        /\ QuickTaskForm.showQuickTask s' = false
        /\ QuickTaskForm.isSubmitting s' = false
        /\ QuickTaskForm.toasts s'
           = QuickTaskForm.toasts s
             ++ [ToastSuccess "Execution started successfully"]
        /\ QuickTaskForm.console s' = QuickTaskForm.console s)
    /\ (exists s',
        QuickTaskForm.step Data defaults s
          (QuickTaskForm.Settle (Rejected error)) = Some s'
        /\ QuickTaskForm.values s' = QuickTaskForm.values s
        /\ QuickTaskForm.showQuickTask s' = QuickTaskForm.showQuickTask s
        /\ QuickTaskForm.isSubmitting s' = false
        /\ QuickTaskForm.toasts s' = QuickTaskForm.toasts s ++ [notice error]
        /\ QuickTaskForm.console s'
           = QuickTaskForm.console s ++ ["Failed to create execution:"]).
Proof.
  intros Data defaults s data rest r error Hpend.
  unfold QuickTaskForm.step. rewrite Hpend. split.
  - eexists. split; [reflexivity|]. cbn. repeat split.
  - eexists. split; [reflexivity|].
    unfold QuickTaskForm.onFormSubmit_resume, createExecution.
    cbn [QuickTaskForm.toasts].
    rewrite rejected_skips_continuation. cbn. repeat split.
Qed.

Lemma quick_task_outcome_witness :
  QuickTaskForm.values
    (QuickTaskForm.onFormSubmit_resume string "" "Summarize this document"
       (Rejected network_failure)
       (QuickTaskForm.mk string "Summarize this document" true [] true [] []))
  = "Summarize this document".
Proof.
  destruct (quick_task_outcome string ""
              (QuickTaskForm.mk string "Summarize this document" true
                 ["Summarize this document"] true [] [])
              "Summarize this document" []
              (mkResponse 200 (sample_execution "e1" "pending"))
              network_failure eq_refl)
    as (_ & s' & Hstep & Hvalues & _).
  cbn in Hstep. inversion Hstep; subst s'. exact Hvalues.
Defined.

(** ** Navigation *)

(** X18.  Whatever is clicked, the active tab is always one of the six
    navigation targets, exactly one navigation button is highlighted, and
    the main area shows exactly one panel, except on the settings tab, for
    which there is no panel and the main area is empty. *)
Theorem navigation_tabs :
  forall (evs : list Home.event) (s : Home.state),
    Home.run Home.initial evs = Some s ->
    In (Home.activeTab s) (map Home.href Home.navigation)
    /\ List.length (filter (Home.isActive (Home.activeTab s))
                           Home.navigation) = 1%nat
    /\ List.length (Home.panels (Home.activeTab s))
       = (if String.eqb (Home.activeTab s) "settings" then 0 else 1)%nat.
Proof.
  intros evs s Hrun.
  assert (HI : In (Home.activeTab s) (map Home.href Home.navigation)).
  { apply (run_events_invariant Home.step
             (fun s => In (Home.activeTab s)
                          (map Home.href Home.navigation)))
      with (evs := evs) (s := Home.initial);
      [|left; reflexivity|exact Hrun].
    intros a e b Ha Hstep.
    destruct e as [|index|q|]; cbn [Home.step] in Hstep.
    - inversion Hstep; subst b. exact Ha.
    - destruct (nth_error Home.navigation index) as [item|] eqn:Hnth;
        [|discriminate].
      inversion Hstep; subst b. cbn [Home.activeTab].
      apply in_map. eapply nth_error_In. exact Hnth.
    - inversion Hstep; subst b. cbn [Home.activeTab].
      destruct q; cbn; auto 8.
    - inversion Hstep; subst b. exact Ha. }
  split; [exact HI|].
  cbn in HI.
  destruct HI as [H|[H|[H|[H|[H|[H|[]]]]]]]; rewrite <- H;
    split; reflexivity.
Qed.

Lemma navigation_tabs_witness :
  List.length (Home.panels "settings") = 0%nat
  /\ List.length (Home.panels "metrics") = 1%nat.
Proof.
  destruct (navigation_tabs [Home.MenuClick; Home.NavClick 5]
              (Home.mk false "settings") eq_refl) as (_ & _ & Hs).
  destruct (navigation_tabs [Home.QuickAction Home.NewProfile; Home.NavClick 4]
              (Home.mk false "metrics") eq_refl) as (_ & _ & Hm).
  split; [exact Hs | exact Hm].
Defined.

(** X19.  The web socket of a client whose base URL starts with "http" is
    opened on the same address with "ws" in place of that "http", so an
    https base gives a wss socket; only this first occurrence is replaced.
    A client constructed without an argument never has an empty base URL,
    and without the environment variable its socket for an execution is at
    ws://localhost:8000/ws/executions/ followed by the id. *)
Theorem websocket_url :
  forall (rest executionId : string) (timeout : Z) (env : option string),
    ApiClient.connectWebSocket
      (ApiClient.mk ("http" ++ rest)%string timeout) executionId
    = ("ws" ++ rest ++ "/ws/executions/" ++ executionId)%string
    /\ ApiClient.baseURL (ApiClient.constructor None env) <> ""
    /\ ApiClient.connectWebSocket (ApiClient.constructor None None)
         executionId
       = ("ws://localhost:8000/ws/executions/" ++ executionId)%string
    /\ ApiClient.connectWebSocket (ApiClient.constructor None (Some ""))
         executionId
       = ("ws://localhost:8000/ws/executions/" ++ executionId)%string.
Proof.
  intros rest executionId timeout env.
  split; [|split; [|split; reflexivity]].
  - unfold ApiClient.connectWebSocket. cbn [ApiClient.baseURL].
    assert (Hr : replace_first "http" "ws" ("http" ++ rest)
                 = ("ws" ++ rest)%string).
    { cbn.
      assert (Hp : String.prefix "" rest = true) by (destruct rest; reflexivity).
      rewrite Hp. reflexivity. }
    rewrite Hr. reflexivity.
  - unfold ApiClient.constructor, js_or. cbn [ApiClient.baseURL].
    destruct env as [e|]; [|discriminate].
    destruct (String.eqb_spec e ""); [discriminate | assumption].
Qed.

(** ** The transport adapter, continued *)

(** X20.  For the statuses with a fixed text (401, 403, 404 and 500 or
    more) the notification does not depend on what the backend sent or on
    the error's message: two errors with the same such status are notified
    alike, so a detail supplied with them is never shown. *)
Theorem fixed_notifications_ignore_detail :
  forall (A : Type) (m : method) (url : string) (e1 e2 : AxiosError)
         (st : Z) (log : list toast),
    response_status e1 = Some st ->
    response_status e2 = Some st ->
    st = 401 \/ st = 403 \/ st = 404 \/ 500 <= st ->
    snd (client_request m url (Rejected e1 : settled A) log)
    = snd (client_request m url (Rejected e2 : settled A) log).
Proof.
  intros A m url e1 e2 st log H1 H2 Hst.
  unfold client_request. rewrite !handleError_classified. cbn [snd].
  unfold classify. rewrite H1, H2.
  destruct (st =? 401) eqn:E401; [reflexivity|].
  destruct (st =? 403) eqn:E403; [reflexivity|].
  destruct (st =? 404) eqn:E404; [reflexivity|].
  destruct (500 <=? st) eqn:E500; [reflexivity|].
  apply Z.eqb_neq in E401, E403, E404. apply Z.leb_gt in E500. lia.
Qed.

Lemma fixed_notifications_ignore_detail_witness :
  snd (client_request GET "/health"
         (Rejected (mkError
                      (Some (mkResponse 500
                               (Some (ErrorResponse.mk "boom"
                                        (Some "disk full")))))
                      "Request failed with status code 500")
          : settled Health.t) [])
  = snd (client_request GET "/health"
           (Rejected (mkError (Some (mkResponse 500 None)) "")
            : settled Health.t) []).
Proof.
  apply (fixed_notifications_ignore_detail Health.t GET "/health" _ _ 500 []);
    [reflexivity | reflexivity | lia].
Defined.

(** X21.  A mutating operation whose call fails never reports success: each
    of [createExecution], [deleteExecution], [restoreCheckpoint] and
    [updateConfig] then rejects with the error it got and leaves exactly
    the one error notification of the interceptor. *)
Theorem failed_mutation_reports_no_success :
  forall (SolveRequest ConfigUpdateRequest : Type) (request : SolveRequest)
         (update : ConfigUpdateRequest) (id : string) (resume : option bool)
         (error : AxiosError) (log : list toast),
    createExecution SolveRequest request (Rejected error) log
      = (inr error, log ++ [notice error])
    /\ deleteExecution id (Rejected error) log
       = (inr error, log ++ [notice error])
    /\ restoreCheckpoint id resume (Rejected error) log
       = (inr error, log ++ [notice error])
    /\ updateConfig ConfigUpdateRequest update (Rejected error) log
       = (inr error, log ++ [notice error])
    /\ count_success (log ++ [notice error]) = count_success log.
Proof.
  intros. unfold createExecution, deleteExecution, restoreCheckpoint,
    updateConfig, notice.
  rewrite !rejected_skips_continuation.
  repeat split. apply count_success_snoc_error.
Qed.

(** ** A whole poll *)

Lemma poll_script_runs (d : Z) (final : StatusPolling.t)
    (snapshots : list StatusPolling.t) :
  0 < d < 2 ^ 31 ->
  Poller.is_terminal (StatusPolling.status final) = true ->
  Forall nonterminal snapshots ->
  forall s,
    Poller.inflight s = 1%nat -> Poller.timers s = [] ->
    Poller.interval s = d ->
    exists s',
      Poller.run s (poll_script d snapshots final) = Some s'
      /\ Poller.delivered s' = Poller.delivered s ++ snapshots ++ [final]
      /\ Poller.requests s'
         = Poller.requests s
           ++ request_times (Poller.now s + d) d (List.length snapshots)
      /\ Poller.quiescent s'.
Proof.
  intros Hd Hfinal Hall. induction Hall as [|x later Hx _ IH];
    intros s Hin Htm Hint.
  - cbn [poll_script Poller.run run_events Poller.step].
    rewrite Hin. unfold ok. rewrite poll_resume_fulfilled.
    cbn [data]. rewrite Hfinal, Hin, Htm.
    eexists. split; [reflexivity|]. cbn. rewrite app_nil_r.
    repeat split.
  - assert (Hs1 : Poller.poll_resume (ok x) s
                  = Poller.mk (Poller.executionId s) d (Poller.now s) 0
                      [Poller.now s + d] (Poller.requests s)
                      (Poller.delivered s ++ [x]) (Poller.toasts s)
                      (Poller.console s)).
    { unfold ok. rewrite poll_resume_fulfilled. cbn [data].
      unfold nonterminal in Hx. rewrite Hx, Hin, Htm, Hint.
      rewrite timer_due_in_range by lia. reflexivity. }
    cbn [poll_script Poller.run run_events Poller.step].
    rewrite Hin, Hs1.
    assert (H0 : (0 <=? d) = true) by (apply Z.leb_le; lia). rewrite H0.
    cbn [Poller.now Poller.timers Poller.executionId Poller.interval
         Poller.inflight Poller.requests Poller.delivered Poller.toasts
         Poller.console].
    rewrite Z.leb_refl.
    match goal with
    | |- exists s', _ ?s1 (poll_script _ _ _) = _ /\ _ =>
        destruct (IH s1 eq_refl eq_refl eq_refl)
          as (s' & Hrun & Hdel & Hreq & Hq)
    end.
    exists s'. split; [exact Hrun|].
    cbn in Hdel, Hreq. rewrite Hdel, Hreq. cbn [List.length request_times].
    rewrite <- !app_assoc. repeat split; apply Hq.
Qed.

(** X22.  Against a backend that answers with any number of non-terminal
    snapshots and then a terminal one, with a sink that returns on each and
    every timer running when it is due, a poller with an interval from 1 to
    2^31 - 1 ms hands all of them to the sink in order, the terminal one
    last, issues one request per snapshot, the first at the call and each
    next one exactly one interval after the previous, adds no
    notification, and ends with nothing in flight and no timer pending. *)
Theorem poll_until_terminal :
  forall (executionId : string) (interval : option Z) (t0 : Z)
         (log : list toast) (snapshots : list StatusPolling.t)
         (final : StatusPolling.t),
    let d := match interval with Some i => i | None => 2000 end in
    0 < d < 2 ^ 31 ->
    Forall nonterminal snapshots ->
    Poller.is_terminal (StatusPolling.status final) = true ->
    exists s,
      Poller.run
        (fst (Poller.pollExecutionStatus executionId interval t0 log))
        (poll_script d snapshots final) = Some s
      /\ Poller.delivered s = snapshots ++ [final]
      /\ Poller.requests s
         = request_times t0 d (S (List.length snapshots))
      /\ Poller.quiescent s
      /\ Poller.toasts s = log.
Proof.
  intros executionId interval t0 log snapshots final d Hd Hall Hfinal.
  destruct (poll_script_runs d final snapshots Hd Hfinal Hall
              (fst (Poller.pollExecutionStatus executionId interval t0 log))
              eq_refl eq_refl eq_refl)
    as (s & Hrun & Hdel & Hreq & Hq).
  exists s. split; [exact Hrun|].
  split; [exact Hdel|]. split; [exact Hreq|]. split; [exact Hq|].
  destruct (poller_trace _ _ _ Hrun) as (_ & Ht & _).
  rewrite Ht. cbn [Poller.toasts Poller.pollExecutionStatus fst
                   Poller.poll_issue Poller.idle].
  assert (Hnone : forall l, rejected_errors (poll_script d l final) = []).
  { induction l as [|x l IHl]; [reflexivity|]. cbn. exact IHl. }
  rewrite Hnone. cbn. apply app_nil_r.
Qed.

Lemma poll_until_terminal_witness :
  exists s,
    Poller.run sample_poller
      (poll_script 2000 [sample_status "running"; sample_status "running"]
         (sample_status "completed")) = Some s
    /\ Poller.delivered s
       = [sample_status "running"; sample_status "running";
          sample_status "completed"]
    /\ Poller.requests s = [0; 2000; 4000].
Proof.
  destruct (poll_until_terminal "exec-1" None 0 []
              [sample_status "running"; sample_status "running"]
              (sample_status "completed"))
    as (s & Hrun & Hdel & Hreq & _).
  - lia.
  - repeat constructor.
  - reflexivity.
  - exists s. split; [exact Hrun|]. split; [exact Hdel | exact Hreq].
Defined.
